(** * MolRep: attribution post-processing of [ExplainerExperiments]

    A shallow embedding of the numerical part of
    [MolRep/Explainer/explainerExperiments.py]: bond-to-atom aggregation and
    normalization ([preprocessing_attributions], [normalize_attributions]),
    the pair alignment of [evaluate_cliffs], and the colouring rules
    ([determine_atom_col], [determine_bond_col]).

    Conventions of the model.
    - Importance scores are exact rationals ([Q]); rounding of the machine
      floats of numpy is not modelled, and equalities between scores are
      stated with [Qeq] ([==]).
    - Importance arrays are one-dimensional ([list Q]); for such arrays the
      channel selection [att[:, -1] if att_probs[0].ndim > 1 else att] is the
      identity.
    - A Python exception is a value [Raise e] of the type [result].
    - [preprocessing_attributions] adds the bond shares to the arrays of
      [atom_importance] in place; the model returns the updated vectors and
      does not follow the caller's arrays after the call, on which no
      statement below depends.
    - Atom and bond indices are the unsigned indices RDKit hands out ([nat]).
*)

From Stdlib Require Import QArith Qminmax Qabs Qround Lqa ZArith Lia Ascii String.
From stdpp Require Import gmap strings list pretty.

(** ** Exceptions *)

Inductive exn : Set :=
| IndexError      (* sequence index out of range *)
| ValueError      (* list.index miss, empty concatenate, empty fit *)
| AttributeError  (* method call on None *)
| RuntimeError.   (* RDKit range error *)

Inductive result (A : Type) : Type :=
| Ok (a : A)
| Raise (e : exn).

Arguments Ok {A} a.
Arguments Raise {A} e.

(** The error monad; stdpp's notation [x ← r; k] sequences two steps and
    lets the first exception escape. *)
#[export] Instance result_ret : MRet result := fun _ a => Ok a.
#[export] Instance result_bind : MBind result := fun _ _ k r =>
  match r with
  | Ok a => k a
  | Raise e => Raise e
  end.

(** [seq[i]] on a Python list or numpy array with a non-negative index. *)
Definition getitem {A} (l : list A) (i : nat) : result A :=
  match l !! i with
  | Some x => Ok x
  | None => Raise IndexError
  end.

(** ** Molecules

    What the code reads from an RDKit molecule: the number of atoms, the
    bonds in [GetBonds()] order as pairs [(GetBeginAtomIdx, GetEndAtomIdx)],
    and the [atomNote] property of its atoms. *)

Record Mol : Type := {
  NumAtoms : nat;
  GetBonds : list (nat * nat);
  atomNote : gmap nat string
}.

(** ** Aggregation of bond importance (lines 138-149) *)

Abbreviation vec := (list Q).

(** [atom_imp[i] += d] *)
Definition iadd (atom_imp : vec) (i : nat) (d : Q) : result vec :=
  match atom_imp !! i with
  | Some x => Ok (<[i := (x + d)%Q]> atom_imp)
  | None => Raise IndexError
  end.

(** The loop [for (atom_i_idx, atom_j_idx), b_imp in zip(bond_idx, bond_imp)]
    over the already zipped list. *)
Fixpoint aggregate_loop (atom_imp : vec) (zipped : list ((nat * nat) * Q))
  : result vec :=
  match zipped with
  | [] => Ok atom_imp
  | ((atom_i_idx, atom_j_idx), b_imp) :: rest =>
      a1 ← iadd atom_imp atom_i_idx (b_imp / 2)%Q;
      a2 ← iadd a1 atom_j_idx (b_imp / 2)%Q;
      aggregate_loop a2 rest
  end.

(** Python's [zip] stops at the shorter argument, as stdpp's [zip] does. *)
Definition aggregate (atom_imp : vec) (bond_idx : list (nat * nat))
    (bond_imp : vec) : result vec :=
  aggregate_loop atom_imp (zip bond_idx bond_imp).

(** Sum of a vector, and the share of atom [k] in a zipped bond list. *)
Definition vsum (v : vec) : Q := fold_right Qplus 0%Q v.


Definition valid_bond (n : nat) (b : nat * nat) : Prop :=
  (b.1 < n)%nat /\ (b.2 < n)%nat.

(** ** Normalization (lines 274-288) *)

(** The values the parameter [positive] receives: a boolean (its default
    is [False]) or, from line 153, the string held by [normalizer].
    [truthy] is Python's truth value of such an object. *)
Inductive pyval : Set :=
| PyBool (b : bool)
| PyStr (s : string).

Definition truthy (v : pyval) : bool :=
  match v with
  | PyBool b => b
  | PyStr s => negb (String.eqb s "")
  end.

Definition Qltb (x y : Q) : bool := negb (Qle_bool y x).

(** [np.concatenate] refuses an empty sequence of arrays. *)
Definition concatenate (att_list : list vec) : result vec :=
  match att_list with
  | [] => Raise ValueError
  | _ => Ok (concat att_list)
  end.

(** [all_values[all_values > 0]] *)
Definition positive_values (all_values : vec) : vec :=
  List.filter (fun x => Qltb 0 x) all_values.

(** sklearn's [MinMaxScaler] with its default [feature_range=(0, 1)]:
    [fit] records the minimum and the range of the data, a zero range being
    replaced by 1 in the scale, and [transform] computes
    [X * scale_ + min_]. Both refuse an array without samples. *)
Record MinMaxScaler : Set := {
  data_min_ : Q;
  data_max_ : Q;
  scale_ : Q;
  min_ : Q
}.

Definition handle_zeros_in_scale (s : Q) : Q :=
  if Qeq_bool s 0 then 1%Q else s.

Definition MinMaxScaler_fit (X : vec) : result MinMaxScaler :=
  match X with
  | [] => Raise ValueError
  | x :: xs =>
      let data_min := fold_left Qmin xs x in
      let data_max := fold_left Qmax xs x in
      let data_range := (data_max - data_min)%Q in
      let scale := ((1 - 0) / handle_zeros_in_scale data_range)%Q in
      Ok {| data_min_ := data_min; data_max_ := data_max;
            scale_ := scale; min_ := (0 - data_min * scale)%Q |}
  end.

Definition MinMaxScaler_transform (s : MinMaxScaler) (X : vec) : result vec :=
  match X with
  | [] => Raise ValueError
  | _ => Ok (map (fun x => (x * scale_ s + min_ s)%Q) X)
  end.

(** [transform] applied to every array of [att_list], in order. *)
Fixpoint transform_all (transform : vec -> result vec) (att_list : list vec)
  : result (list vec) :=
  match att_list with
  | [] => Ok []
  | att :: rest =>
      normed_nodes ← transform att;
      new_att ← transform_all transform rest;
      mret (normed_nodes :: new_att)
  end.

(** The labels of the comparative evaluation are signed integers. *)
Record pair_record : Set := {
  SMILES_1 : string;
  SMILES_2 : string;
  attribution_1 : list Z;
  attribution_2 : list Z
}.

(** [list.index]: first position of [x], [ValueError] when absent. *)
Fixpoint list_index (x : string) (l : list string) : result nat :=
  match l with
  | [] => Raise ValueError
  | y :: l' =>
      if decide (y = x) then Ok 0%nat
      else i ← list_index x l'; mret (S i)
  end.

(** [1 if att>0.5 else -1 if att<(-0.5) else 0] *)
Definition signed_label (att : Q) : Z :=
  if Qltb 0.5 att then 1%Z
  else if Qltb att (-0.5) then (-1)%Z
  else 0%Z.

Definition att_binary_of (att_probs_reset : list vec) : list (list Z) :=
  map (map signed_label) att_probs_reset.

(** The loop of lines 249-262 over the pair records. *)
Fixpoint cliff_loop (smiles_list : list string) (att_probs : list vec)
    (att_true_pair : list pair_record) : result (list vec * list (list Z)) :=
  match att_true_pair with
  | [] => Ok ([], [])
  | r :: rest =>
      idx_1 ← list_index (SMILES_1 r) smiles_list;
      idx_2 ← list_index (SMILES_2 r) smiles_list;
      p1 ← getitem att_probs idx_1;
      p2 ← getitem att_probs idx_2;
      acc ← cliff_loop smiles_list att_probs rest;
      mret (p1 :: p2 :: acc.1,
            attribution_1 r :: attribution_2 r :: acc.2)
  end.

Section Pipeline.

(** Collaborators outside this file: RDKit's SMILES parser ([None] for
    a string it rejects), sklearn's [QuantileTransformer] (fit, giving
    the fitted transform), and the metrics of
    [MolRep.Explainer.Metrics.attribution_metric] with numpy's
    [nanmean]. *)
Variable MolFromSmiles : string -> option Mol.
Variable QuantileTransformer_fit : vec -> result (vec -> result vec).
Variable score : Type.
Variable get_optimal_threshold :
  list (list Z) -> list vec -> bool -> result score.
Variable attribution_f1 attribution_accuracy :
  list (list Z) -> list (list Z) -> result (list score).
Variable nanmean : list score -> score.

Definition normalize_attributions (att_list : list vec)
    (positive : pyval) (normalizer : string) : result (list vec) :=
  all_values ← concatenate att_list;
  let all_values :=
    if truthy positive then positive_values all_values else all_values in
  transform ←
    (if String.eqb normalizer "QuantileTransformer"
     then QuantileTransformer_fit all_values
     else s ← MinMaxScaler_fit all_values;
          mret (MinMaxScaler_transform s));
  transform_all transform att_list.

(** The loop of lines 134-149, [idx] being the position reached. *)
Fixpoint preprocessing_loop (idx : nat) (smiles_list : list string)
    (atom_importance : list vec) (bond_importance : option (list vec))
  : result (list vec) :=
  match smiles_list with
  | [] => Ok []
  | smiles :: rest =>
      let mol := MolFromSmiles smiles in
      atom_imp ← getitem atom_importance idx;
      atom_imp ←
        match bond_importance with
        | Some bi =>
            bond_imp ← getitem bi idx;
            m ← (match mol with
                 | Some m => Ok m
                 | None => Raise AttributeError
                 end);
            aggregate atom_imp (GetBonds m) bond_imp
        | None => Ok atom_imp
        end;
      att_probs ← preprocessing_loop (S idx) rest
                    atom_importance bond_importance;
      mret (atom_imp :: att_probs)
  end.

(** Line 153 passes [normalizer] in the position of [positive]; the
    parameter [normalizer] of [normalize_attributions] keeps its
    default. *)
Definition preprocessing_attributions (smiles_list : list string)
    (atom_importance : list vec) (bond_importance : option (list vec))
    (normalizer : string) : result (list vec) :=
  att_probs ← preprocessing_loop 0 smiles_list
                atom_importance bond_importance;
  normalize_attributions att_probs (PyStr normalizer) "MinMaxScaler".

(** [evaluate_cliffs], the dataset being given by its SMILES list and
    its pair records. *)
Definition evaluate_cliffs (smiles_list : list string)
    (att_true_pair : list pair_record)
    (atom_importance : list vec) (bond_importance : option (list vec))
  : result (list (string * score) * score) :=
  att_probs ← preprocessing_attributions smiles_list
                atom_importance bond_importance "MinMaxScaler";
  lists ← cliff_loop smiles_list att_probs att_true_pair;
  let att_probs_reset := lists.1 in
  let att_true := lists.2 in
  opt_threshold ← get_optimal_threshold att_true att_probs_reset true;
  let att_binary := att_binary_of att_probs_reset in
  f1 ← attribution_f1 att_true att_binary;
  acc ← attribution_accuracy att_true att_binary;
  mret ([("ATT F1", nanmean f1); ("ATT ACC", nanmean acc)],
        opt_threshold).

End Pipeline.

(** ** Colouring (lines 156-214) *)

Definition color : Set := (Z * Z * Z)%type.

Definition GREEN_COL : color := (0, 1, 0)%Z.
Definition RED_COL : color := (1, 0, 0)%Z.

(** ["%.3f" % v]: the sign, the integer part and three decimals of [v]
    rounded to the nearest thousandth, a tie going to the even one. *)
Definition round_half_even (q : Q) : Z :=
  let f := Qfloor q in
  match (q - inject_Z f ?= 1 # 2)%Q with
  | Lt => f
  | Gt => (f + 1)%Z
  | Eq => if Z.even f then f else (f + 1)%Z
  end.

Definition digit (n : Z) : ascii :=
  ascii_of_nat (48 + Z.to_nat (n mod 10)).

Definition decimals3 (n : Z) : string :=
  String (digit (n / 100)) (String (digit (n / 10)) (String (digit n) "")).

Definition format_3f (v : Q) : string :=
  let n := round_half_even (Qabs v * 1000) in
  ((if Qltb v 0 then "-" else "")
   +:+ pretty (Z.to_N (n / 1000)) +:+ "." +:+ decimals3 n)%string.

(** [cp.GetAtomWithIdx(idx).SetProp("atomNote", s)]; RDKit rejects an
    index that is not an atom of the molecule. *)
Definition SetAtomNote (cp : Mol) (idx : nat) (s : string) : result Mol :=
  if decide (idx < NumAtoms cp)%nat
  then Ok {| NumAtoms := NumAtoms cp; GetBonds := GetBonds cp;
             atomNote := <[idx := s]> (atomNote cp) |}
  else Raise RuntimeError.

(** The body of the loop of lines 183-189 for the atom [idx] of value [v];
    [cp] is updated in place by the source and threaded here. *)
Definition atom_col_step (idx : nat) (v eps : Q) (set_weights : bool)
    (atom_col : gmap nat color) (cp : Mol)
  : result (gmap nat color * Mol) :=
  let atom_col :=
    if Qltb eps v then <[idx := RED_COL]> atom_col else atom_col in
  if Qltb v (- eps) then
    let atom_col := <[idx := RED_COL]> atom_col in
    if set_weights
    then cp' ← SetAtomNote cp idx (format_3f v); mret (atom_col, cp')
    else mret (atom_col, cp)
  else mret (atom_col, cp).

(** [for idx, v in enumerate(atom_importance)] *)
Fixpoint atom_col_loop (idx : nat) (atom_importance : vec) (eps : Q)
    (set_weights : bool) (atom_col : gmap nat color) (cp : Mol)
  : result (gmap nat color * Mol) :=
  match atom_importance with
  | [] => Ok (atom_col, cp)
  | v :: rest =>
      st ← atom_col_step idx v eps set_weights atom_col cp;
      atom_col_loop (S idx) rest eps set_weights st.1 st.2
  end.

Definition determine_atom_col (cp : Mol) (atom_importance : vec) (eps : Q)
    (set_weights : bool) : result (gmap nat color * Mol) :=
  atom_col_loop 0 atom_importance eps set_weights ∅ cp.

(** The loop of lines 209-213. *)
Fixpoint bond_col_loop (idx : nat) (bonds : list (nat * nat))
    (atom_col bond_col : gmap nat color) : gmap nat color :=
  match bonds with
  | [] => bond_col
  | (atom_i_idx, atom_j_idx) :: rest =>
      let bond_col :=
        match atom_col !! atom_i_idx, atom_col !! atom_j_idx with
        | Some ci, Some cj =>
            if decide (ci = cj) then <[idx := ci]> bond_col else bond_col
        | _, _ => bond_col
        end in
      bond_col_loop (S idx) rest atom_col bond_col
  end.

Definition determine_bond_col (atom_col : gmap nat color) (mol : Mol)
  : gmap nat color :=
  bond_col_loop 0 (GetBonds mol) atom_col ∅.

(** ** Threshold evaluation (lines 216-240) *)

(** What a metric of [attribution_metric] is handed as prediction: the
    normalized scores, or the integer labels made from them. *)
Inductive prediction : Type :=
| Scores (att_probs : list vec)
| Labels (att_binary : list (list Z)).

(** [1 if att>opt_threshold else 0] *)
Definition binary_label (opt_threshold att : Q) : Z :=
  if Qltb opt_threshold att then 1%Z else 0%Z.

Section Scoring.

Variable MolFromSmiles : string -> option Mol.
Variable QuantileTransformer_fit : vec -> result (vec -> result vec).
Variable score : Type.
Variable get_optimal_threshold : list (list Z) -> list vec -> result Q.
Variable attribution_auroc attribution_f1 attribution_accuracy :
  list (list Z) -> prediction -> result (list score).
Variable nanmean : list score -> score.

(** [evaluate_attributions], the dataset being given by its SMILES list
    and its ground truth; [stats] keeps the order of insertion. *)
Definition evaluate_attributions (smiles_list : list string)
    (att_true : list (list Z))
    (atom_importance : list vec) (bond_importance : option (list vec))
    (binary : bool) : result (list (string * score) * Q) :=
  att_probs ← preprocessing_attributions MolFromSmiles
                QuantileTransformer_fit smiles_list
                atom_importance bond_importance "MinMaxScaler";
  if binary then
    let opt_threshold := (-1)%Q in
    f1 ← attribution_f1 att_true (Scores att_probs);
    acc ← attribution_accuracy att_true (Scores att_probs);
    mret ([("ATT F1", nanmean f1); ("ATT ACC", nanmean acc)],
          opt_threshold)
  else
    opt_threshold ← get_optimal_threshold att_true att_probs;
    let att_binary := map (map (binary_label opt_threshold)) att_probs in
    auroc ← attribution_auroc att_true (Scores att_probs);
    f1 ← attribution_f1 att_true (Labels att_binary);
    acc ← attribution_accuracy att_true (Labels att_binary);
    mret ([("ATT AUROC", nanmean auroc); ("ATT F1", nanmean f1);
           ("ATT ACC", nanmean acc)],
          opt_threshold).


End Scoring.

(** ** The drawing data of one molecule (lines 99-122) *)

(** The arguments [visualization] hands to [DrawMolecule]; the two key
    lists are kept as the sets they stand for. *)
Record DrawCall : Type := {
  draw_mol : Mol;
  highlightAtoms : gset nat;
  highlightAtomColors : gmap nat color;
  highlightAtomRadii : gmap nat Q;
  highlightBonds : gset nat;
  highlightBondColors : gmap nat color
}.

(** The body of the loop of [visualization] for a molecule that RDKit has
    parsed, up to the call of the drawer; [cp = Chem.Mol(mol)] is a copy
    of [mol]. *)
Definition visualization_molecule (mol : Mol) (atom_imp : vec)
    (vis_factor : Q) : result DrawCall :=
  let cp := mol in
  r ← determine_atom_col cp atom_imp 0.1%Q true;
  let highlightAtomColors := r.1 in
  let cp := r.2 in
  let highlightBondColors := determine_bond_col highlightAtomColors mol in
  mret {| draw_mol := cp;
          highlightAtoms := dom highlightAtomColors;
          highlightAtomColors := highlightAtomColors;
          highlightAtomRadii :=
            list_to_map (imap (fun k _ => (k, (0.1 * vis_factor)%Q))
                           atom_imp);
          highlightBonds := dom highlightBondColors;
          highlightBondColors := highlightBondColors |}.

(** ** Vocabulary of the statements *)

(** A SMILES string resolves to the first position that holds it. *)
Definition resolves (smiles_list : list string) (smiles : string)
    (idx : nat) : Prop :=
  smiles_list !! idx = Some smiles /\
  forall j : nat, (j < idx)%nat -> smiles_list !! j <> Some smiles.

(** ** Sample collaborators, used to run the definitions on examples *)

Definition ethanol : Mol :=
  {| NumAtoms := 3; GetBonds := [(0, 1); (1, 2)]%nat; atomNote := ∅ |}.

Definition ethane : Mol :=
  {| NumAtoms := 2; GetBonds := [(0, 1)]%nat; atomNote := ∅ |}.

Definition sample_MolFromSmiles (s : string) : option Mol :=
  if String.eqb s "CCO" then Some ethanol
  else if String.eqb s "CC" then Some ethane
  else None.

(** A rank transform standing for the quantile strategy: the share of the
    fitted values that do not exceed the sample. *)
Definition sample_QuantileTransformer_fit (X : vec)
  : result (vec -> result vec) :=
  match X with
  | [] => Raise ValueError
  | _ =>
      Ok (fun att =>
            match att with
            | [] => Raise ValueError
            | _ =>
                Ok (map (fun x =>
                           (inject_Z (Z.of_nat
                              (length (List.filter (fun y => Qle_bool y x) X)))
                            / inject_Z (Z.of_nat (length X)))%Q) att)
            end)
  end.

(** Stand-ins for the metrics: the share of labels that agree, for each
    molecule, a fixed threshold, and the plain mean. *)
Definition sample_metric (att_true att_binary : list (list Z))
  : result (list Q) :=
  Ok (zip_with
        (fun t b =>
           (inject_Z (Z.of_nat
              (length (List.filter (fun p => Z.eqb p.1 p.2) (zip t b))))
            / inject_Z (Z.of_nat (length t)))%Q)
        att_true att_binary).

Definition sample_threshold (att_true : list (list Z)) (att_probs : list vec)
    (multi : bool) : result Q :=
  Ok 0.5%Q.

Definition sample_mean (l : list Q) : Q :=
  (vsum l / inject_Z (Z.of_nat (length l)))%Q.

(** Stand-ins for the metrics and the threshold search of
    [evaluate_attributions]. *)
Definition sample_score_metric (att_true : list (list Z)) (p : prediction)
  : result (list Q) :=
  match p with
  | Scores att_probs => Ok (map vsum att_probs)
  | Labels att_binary => sample_metric att_true att_binary
  end.

Definition sample_search (att_true : list (list Z)) (att_probs : list vec)
  : result Q :=
  Ok 0.5%Q.

(** * Properties *)

(** ** The error monad *)

Lemma bind_Ok_inv {A B} (r : result A) (k : A -> result B) (b : B) :
  r ≫= k = Ok b -> exists a, r = Ok a /\ k a = Ok b.
Proof. destruct r as [a|e]; simpl; [eauto | discriminate]. Qed.

Lemma getitem_Ok {A} (l : list A) (i : nat) (x : A) :
  getitem l i = Ok x <-> l !! i = Some x.
Proof.
  unfold getitem. destruct (l !! i); split; intros H;
    inversion H; subst; reflexivity.
Qed.

Lemma getitem_lt {A} (l : list A) (i : nat) :
  (i < length l)%nat -> exists x, getitem l i = Ok x /\ l !! i = Some x.
Proof.
  intros Hi. destruct (lookup_lt_is_Some_2 l i Hi) as [x Hx].
  exists x. split; [by apply getitem_Ok | done].
Qed.

Ltac inv_bind H :=
  let a := fresh "a" in
  let Ha := fresh "Ha" in
  apply bind_Ok_inv in H; destruct H as (a & Ha & H).

(** ** Aggregation *)

Lemma iadd_Ok (v : vec) (i : nat) (d x : Q) :
  v !! i = Some x -> iadd v i d = Ok (<[i := (x + d)%Q]> v).
Proof. intros H. unfold iadd. by rewrite H. Qed.

Lemma iadd_inv (v v' : vec) (i : nat) (d : Q) :
  iadd v i d = Ok v' ->
  exists x, v !! i = Some x /\ v' = <[i := (x + d)%Q]> v.
Proof.
  unfold iadd. destruct (v !! i) as [x|] eqn:E; [|discriminate].
  intros [= <-]. eauto.
Qed.

Lemma iadd_length (v v' : vec) (i : nat) (d : Q) :
  iadd v i d = Ok v' -> length v' = length v.
Proof. intros (x & _ & ->)%iadd_inv. apply length_insert. Qed.


Lemma aggregate_loop_length (zipped : list ((nat * nat) * Q)) :
  forall v v' : vec, aggregate_loop v zipped = Ok v' -> length v' = length v.
Proof.
  induction zipped as [|[[i j] b] rest IH]; intros v v' H; simpl in H.
  - by injection H as <-.
  - inv_bind H. inv_bind H.
    rewrite (IH _ _ H), (iadd_length _ _ _ _ Ha0).
    by eapply iadd_length.
Qed.


(** With valid endpoints no index is out of range. *)
Lemma aggregate_loop_Ok (zipped : list ((nat * nat) * Q)) :
  forall v : vec,
    Forall (fun z => valid_bond (length v) z.1) zipped ->
    exists v', aggregate_loop v zipped = Ok v'.
Proof.
  induction zipped as [|[[i j] b] rest IH]; intros v Hv; simpl.
  - eauto.
  - inversion Hv as [|? ? [Hi Hj] Hrest]; subst. simpl in Hi, Hj.
    destruct (lookup_lt_is_Some_2 v i Hi) as [x Hx].
    rewrite (iadd_Ok _ _ _ _ Hx). simpl.
    destruct (lookup_lt_is_Some_2 (<[i:=(x + b / 2)%Q]> v) j) as [y Hy].
    { by rewrite length_insert. }
    rewrite (iadd_Ok _ _ _ _ Hy). simpl.
    apply IH. by rewrite !length_insert.
Qed.

Lemma vsum_insert (v : vec) :
  forall (i : nat) (x y : Q),
    v !! i = Some x -> (vsum (<[i := y]> v) == vsum v - x + y)%Q.
Proof.
  induction v as [|a v IH]; intros [|i] x y H; simpl in *; try discriminate.
  - injection H as ->. ring.
  - rewrite (IH _ _ _ H). ring.
Qed.

Lemma iadd_vsum (v v' : vec) (i : nat) (d : Q) :
  iadd v i d = Ok v' -> (vsum v' == vsum v + d)%Q.
Proof.
  intros (x & Hx & ->)%iadd_inv. rewrite (vsum_insert _ _ _ _ Hx). ring.
Qed.

Lemma Qhalves (a b c : Q) : (a + b / 2 + b / 2 + c == a + (b + c))%Q.
Proof. field. Qed.

Lemma aggregate_loop_vsum (zipped : list ((nat * nat) * Q)) :
  forall v v' : vec,
    aggregate_loop v zipped = Ok v' ->
    (vsum v' == vsum v + vsum zipped.*2)%Q.
Proof.
  induction zipped as [|[[i j] b] rest IH]; intros v v' H; simpl in H.
  - injection H as <-. simpl. ring.
  - inv_bind H. inv_bind H.
    rewrite (IH _ _ H), (iadd_vsum _ _ _ _ Ha0), (iadd_vsum _ _ _ _ Ha).
    change (vsum ((i, j, b) :: rest).*2) with (b + vsum rest.*2)%Q.
    apply Qhalves.
Qed.

Lemma zip_valid (n : nat) (bond_idx : list (nat * nat)) (bond_imp : vec) :
  Forall (valid_bond n) bond_idx ->
  Forall (fun z => valid_bond n z.1) (zip bond_idx bond_imp).
Proof.
  intros H. revert bond_imp.
  induction H as [|b l Hb Hl IH]; intros [|q imp]; simpl; constructor; auto.
Qed.

Lemma aggregate_Ok (atom_imp : vec) (bond_idx : list (nat * nat))
    (bond_imp : vec) :
  Forall (valid_bond (length atom_imp)) bond_idx ->
  exists v', aggregate atom_imp bond_idx bond_imp = Ok v'.
Proof. intros H. apply aggregate_loop_Ok, zip_valid, H. Qed.

Lemma zip_take_min {A B} (l : list A) (k : list B) :
  zip l k = zip (take (length l `min` length k) l)
                (take (length l `min` length k) k).
Proof.
  revert k. induction l as [|a l IH]; intros [|b k]; simpl; try done.
  by rewrite <- IH.
Qed.

Section PipelineFacts.

Variable MolFromSmiles : string -> option Mol.



Lemma preprocessing_loop_length (smiles_list : list string)
    (atom_importance : list vec) (bond_importance : option (list vec)) :
  forall (idx : nat) (att_probs : list vec),
    preprocessing_loop MolFromSmiles idx smiles_list atom_importance
      bond_importance = Ok att_probs ->
    length att_probs = length smiles_list.
Proof.
  induction smiles_list as [|s rest IH]; intros idx att_probs H; simpl in H.
  - by injection H as <-.
  - inv_bind H. inv_bind H. inv_bind H. injection H as <-.
    simpl. f_equal. eauto.
Qed.

End PipelineFacts.



Lemma aggregate_vsum (atom_imp : vec) (bond_idx : list (nat * nat))
    (bond_imp v' : vec) :
  aggregate atom_imp bond_idx bond_imp = Ok v' ->
  (vsum v' == vsum atom_imp + vsum (zip bond_idx bond_imp).*2)%Q.
Proof. apply aggregate_loop_vsum. Qed.



Lemma iadd_Raise (v : vec) (i : nat) (d : Q) (e : exn) :
  iadd v i d = Raise e -> e = IndexError /\ (length v <= i)%nat.
Proof.
  unfold iadd. destruct (v !! i) eqn:E; [discriminate|].
  intros [= <-]. split; [done|]. by apply lookup_ge_None.
Qed.

(** The only exception of the loop is the [IndexError] of an endpoint that
    is not an index of the atom vector. *)
Lemma aggregate_loop_Raise (zipped : list ((nat * nat) * Q)) :
  forall (v : vec) (e : exn),
    aggregate_loop v zipped = Raise e ->
    e = IndexError /\
    Exists (fun z => ~ valid_bond (length v) z.1) zipped.
Proof.
  induction zipped as [|[[i j] b] rest IH]; intros v e H; simpl in H.
  - discriminate.
  - destruct (iadd v i (b / 2)) as [a1|e1] eqn:E1; simpl in H.
    + destruct (iadd a1 j (b / 2)) as [a2|e2] eqn:E2; simpl in H.
      * destruct (IH _ _ H) as [-> Hex]. split; [done|].
        apply Exists_cons_tl.
        by rewrite (iadd_length _ _ _ _ E2), (iadd_length _ _ _ _ E1) in Hex.
      * injection H as <-. destruct (iadd_Raise _ _ _ _ E2) as [-> Hj].
        split; [done|]. apply Exists_cons_hd. unfold valid_bond. simpl.
        rewrite (iadd_length _ _ _ _ E1) in Hj. lia.
    + injection H as <-. destruct (iadd_Raise _ _ _ _ E1) as [-> Hi].
      split; [done|]. apply Exists_cons_hd. unfold valid_bond. simpl. lia.
Qed.

(** C3, as stated, fails: two bonds with one bond importance give a vector,
    the second bond being left out, and the whole preprocessing call
    returns normally. *)
Lemma length_mismatch_not_signalled :
  length [(0, 1); (1, 2)]%nat <> length [0.2]%Q /\
  (exists v' : vec,
      aggregate [0; 0; 0]%Q [(0, 1); (1, 2)]%nat [0.2]%Q = Ok v' /\
      Forall2 Qeq v' [0.1; 0.1; 0]%Q) /\
  (exists out : vec,
      preprocessing_attributions sample_MolFromSmiles
        sample_QuantileTransformer_fit
        ["CCO"] [[0; 0; 0]%Q] (Some [[0.2]%Q]) "MinMaxScaler" = Ok [out] /\
      Forall2 Qeq out [0; 0; -0.1]%Q).
Proof.
  split; [simpl; lia|]. split.
  - eexists. split; [reflexivity|]. repeat constructor.
  - eexists. split; [vm_compute; reflexivity|]. repeat constructor.
Qed.

(** C3, amended. A bond list and a bond importance vector of different
    lengths raise no error of their own: aggregation pairs them up to the
    shorter length and gives what it gives on both cut to that length; the
    only exception it can raise is the [IndexError] of a bond endpoint
    that is no atom index, and when the endpoints of the bonds that are
    paired are atom indices it returns a vector, which holds the bond
    importances that were paired. *)
Theorem aggregation_truncates_to_shorter (atom_imp : vec)
    (bond_idx : list (nat * nat)) (bond_imp : vec) :
  let n := (length bond_idx `min` length bond_imp)%nat in
  aggregate atom_imp bond_idx bond_imp
  = aggregate atom_imp (take n bond_idx) (take n bond_imp)
  /\ (forall e : exn,
        aggregate atom_imp bond_idx bond_imp = Raise e -> e = IndexError)
  /\ (Forall (valid_bond (length atom_imp)) (take n bond_idx) ->
      exists v' : vec,
        aggregate atom_imp bond_idx bond_imp = Ok v' /\
        length v' = length atom_imp /\
        (vsum v' == vsum atom_imp + vsum (take n bond_imp))%Q).
Proof.
  intros n.
  assert (Heq : aggregate atom_imp bond_idx bond_imp
                = aggregate atom_imp (take n bond_idx) (take n bond_imp)).
  { unfold aggregate. by rewrite (zip_take_min bond_idx bond_imp). }
  split; [exact Heq|]. split.
  - intros e H. by destruct (aggregate_loop_Raise _ _ _ H).
  - intros Hvalid. rewrite Heq.
    destruct (aggregate_Ok atom_imp _ (take n bond_imp) Hvalid) as [v' Hv'].
    exists v'. split; [exact Hv'|]. split.
    + by eapply aggregate_loop_length.
    + rewrite (aggregate_vsum _ _ _ _ Hv').
      rewrite snd_zip by (rewrite !length_take; lia). reflexivity.
Qed.

Lemma aggregation_truncates_to_shorter_witness :
  exists v' : vec,
    aggregate [0; 0; 0]%Q [(0, 1); (1, 2)]%nat [0.2]%Q = Ok v' /\
    length v' = 3%nat.
Proof.
  destruct (aggregation_truncates_to_shorter
              [0; 0; 0]%Q [(0, 1); (1, 2)]%nat [0.2]%Q)
    as (_ & _ & Hok).
  destruct Hok as (v' & Hv' & Hl & _).
  - repeat constructor; simpl; lia.
  - exists v'. split; [exact Hv' | exact Hl].
Defined.

(** ** Normalization *)

Lemma transform_all_length (transform : vec -> result vec)
    (att_list : list vec) :
  forall new_att : list vec,
    transform_all transform att_list = Ok new_att ->
    length new_att = length att_list.
Proof.
  induction att_list as [|att rest IH]; intros new_att H; simpl in H.
  - by injection H as <-.
  - inv_bind H. inv_bind H. injection H as <-. simpl. f_equal. eauto.
Qed.

Lemma MinMaxScaler_transform_all_Ok (s : MinMaxScaler) (att_list : list vec) :
  Forall (fun att : vec => att <> []) att_list ->
  exists new_att : list vec,
    transform_all (MinMaxScaler_transform s) att_list = Ok new_att.
Proof.
  induction 1 as [|att rest Hatt _ [new_att IH]]; simpl.
  - eauto.
  - destruct att as [|x att]; [done|]. simpl. rewrite IH. simpl. eauto.
Qed.

Lemma concatenate_Ok (att_list : list vec) :
  att_list <> [] ->
  Forall (fun att : vec => att <> []) att_list ->
  exists all_values : vec,
    concatenate att_list = Ok all_values /\ all_values <> [].
Proof.
  intros Hnil Hall. destruct att_list as [|att rest]; [done|].
  exists (concat (att :: rest)). split; [done|].
  inversion Hall as [|? ? Hatt _]; subst.
  destruct att; [done | discriminate].
Qed.

Lemma MinMaxScaler_fit_Ok (X : vec) :
  X <> [] -> exists s : MinMaxScaler, MinMaxScaler_fit X = Ok s.
Proof. destruct X; [done|]. simpl. eauto. Qed.

Section NormalizeFacts.

Variable QuantileTransformer_fit : vec -> result (vec -> result vec).

(** Every name but ["QuantileTransformer"] takes the [else] branch. *)
Lemma normalize_attributions_else (att_list : list vec) (positive : pyval)
    (normalizer : string) :
  normalizer <> "QuantileTransformer" ->
  normalize_attributions QuantileTransformer_fit att_list positive normalizer
  = (all_values ← concatenate att_list;
     s ← MinMaxScaler_fit
           (if truthy positive then positive_values all_values
            else all_values);
     transform_all (MinMaxScaler_transform s) att_list).
Proof.
  intros Hne. unfold normalize_attributions.
  apply String.eqb_neq in Hne. rewrite Hne.
  destruct (concatenate att_list) as [all_values|e]; [simpl|done].
  by destruct (MinMaxScaler_fit _).
Qed.

End NormalizeFacts.

(** C8, as stated, fails: a name that is no strategy of the code is
    accepted and min-max normalization is what comes out. *)
Lemma unknown_normalizer_accepted :
  "StandardScaler" <> "MinMaxScaler" /\
  "StandardScaler" <> "QuantileTransformer" /\
  exists out : vec,
    normalize_attributions sample_QuantileTransformer_fit
      [[2; 4; 6]%Q] (PyBool false) "StandardScaler" = Ok [out] /\
    Forall2 Qeq out [0; 0.5; 1]%Q.
Proof.
  split; [discriminate|]. split; [discriminate|].
  eexists. split; [vm_compute; reflexivity|]. repeat constructor.
Qed.

(** C8, amended. A strategy name that the code does not know raises no
    error: every name other than ["QuantileTransformer"] selects min-max
    normalization, with the result the name ["MinMaxScaler"] gives; called
    with [positive] false on a non-empty list of non-empty vectors it
    returns one vector for each given one. *)
Theorem unknown_normalizer_is_minmax
    (QuantileTransformer_fit : vec -> result (vec -> result vec))
    (att_list : list vec) (positive : pyval) (normalizer : string) :
  normalizer <> "QuantileTransformer" ->
  normalize_attributions QuantileTransformer_fit att_list positive normalizer
  = normalize_attributions QuantileTransformer_fit att_list positive
      "MinMaxScaler"
  /\ (att_list <> [] ->
      Forall (fun att : vec => att <> []) att_list ->
      truthy positive = false ->
      exists new_att : list vec,
        normalize_attributions QuantileTransformer_fit att_list positive
          normalizer = Ok new_att /\
        length new_att = length att_list).
Proof.
  intros Hne. split.
  - rewrite !normalize_attributions_else by (done || discriminate).
    reflexivity.
  - intros Hnil Hall Hpos.
    rewrite normalize_attributions_else by done. rewrite Hpos.
    destruct (concatenate_Ok att_list Hnil Hall) as (all_values & -> & Hv).
    simpl.
    destruct (MinMaxScaler_fit_Ok all_values Hv) as [s ->]. simpl.
    destruct (MinMaxScaler_transform_all_Ok s att_list Hall)
      as [new_att Hnew].
    exists new_att. split; [exact Hnew|]. by eapply transform_all_length.
Qed.

Lemma unknown_normalizer_is_minmax_witness :
  normalize_attributions sample_QuantileTransformer_fit
    [[2; 4; 6]%Q] (PyBool false) "StandardScaler"
  = normalize_attributions sample_QuantileTransformer_fit
      [[2; 4; 6]%Q] (PyBool false) "MinMaxScaler".
Proof.
  refine (proj1 (unknown_normalizer_is_minmax
                   sample_QuantileTransformer_fit
                   [[2; 4; 6]%Q] (PyBool false) "StandardScaler" _)).
  discriminate.
Defined.

Lemma truthy_PyStr (s : string) : s <> "" -> truthy (PyStr s) = true.
Proof. intros H. simpl. apply String.eqb_neq in H. by rewrite H. Qed.

(** C2, as stated, fails for the empty string, which Python takes for
    false: the scaler is then fitted on all pooled values, and the output
    differs from the one the name ["MinMaxScaler"] gives. *)
Lemma empty_normalizer_differs :
  exists out1 out2 : vec,
    preprocessing_attributions sample_MolFromSmiles
      sample_QuantileTransformer_fit
      ["CCO"] [[-2; 2; 6]%Q] None "MinMaxScaler" = Ok [out1] /\
    preprocessing_attributions sample_MolFromSmiles
      sample_QuantileTransformer_fit
      ["CCO"] [[-2; 2; 6]%Q] None "" = Ok [out2] /\
    Forall2 Qeq out1 [-1; 0; 1]%Q /\
    Forall2 Qeq out2 [0; 0.5; 1]%Q /\
    ~ Forall2 Qeq out1 out2.
Proof.
  eexists. eexists.
  split; [vm_compute; reflexivity|].
  split; [vm_compute; reflexivity|].
  split; [repeat constructor|].
  split; [repeat constructor|].
  intros H. inversion H as [|? ? ? ? Hq _]; subst. discriminate Hq.
Qed.

(** C2, amended. For fixed SMILES list, atom and bond importance, any two
    non-empty values of [normalizer] (every strategy name is one) give the
    same output, whatever the quantile transformer is: the string lands in
    [positive], where it counts as true, so the transform is a min-max
    scaler fitted on the strictly positive pooled values alone. *)
Theorem preprocessing_ignores_normalizer
    (MolFromSmiles : string -> option Mol)
    (QT QT' : vec -> result (vec -> result vec))
    (smiles_list : list string) (atom_importance : list vec)
    (bond_importance : option (list vec)) (n1 n2 : string) :
  n1 <> "" -> n2 <> "" ->
  preprocessing_attributions MolFromSmiles QT smiles_list
    atom_importance bond_importance n1
  = preprocessing_attributions MolFromSmiles QT' smiles_list
      atom_importance bond_importance n2
  /\ preprocessing_attributions MolFromSmiles QT smiles_list
       atom_importance bond_importance n1
     = (att_probs ← preprocessing_loop MolFromSmiles 0 smiles_list
                      atom_importance bond_importance;
        all_values ← concatenate att_probs;
        s ← MinMaxScaler_fit (positive_values all_values);
        transform_all (MinMaxScaler_transform s) att_probs).
Proof.
  intros H1 H2.
  assert (Hshape : forall Q' n, n <> "" ->
    preprocessing_attributions MolFromSmiles Q' smiles_list
      atom_importance bond_importance n
    = (att_probs ← preprocessing_loop MolFromSmiles 0 smiles_list
                     atom_importance bond_importance;
       all_values ← concatenate att_probs;
       s ← MinMaxScaler_fit (positive_values all_values);
       transform_all (MinMaxScaler_transform s) att_probs)).
  { intros Q' n Hn. unfold preprocessing_attributions.
    destruct (preprocessing_loop _ _ _ _ _) as [att_probs|e]; [simpl|done].
    rewrite normalize_attributions_else by discriminate.
    by rewrite (truthy_PyStr n Hn). }
  split; [|by apply Hshape].
  by rewrite (Hshape QT n1 H1), (Hshape QT' n2 H2).
Qed.

Lemma preprocessing_ignores_normalizer_witness :
  preprocessing_attributions sample_MolFromSmiles
    sample_QuantileTransformer_fit
    ["CCO"] [[-2; 2; 6]%Q] (Some [[0.2; 0.4]%Q]) "MinMaxScaler"
  = preprocessing_attributions sample_MolFromSmiles
      sample_QuantileTransformer_fit
      ["CCO"] [[-2; 2; 6]%Q] (Some [[0.2; 0.4]%Q]) "QuantileTransformer".
Proof.
  refine (proj1 (preprocessing_ignores_normalizer sample_MolFromSmiles
                   sample_QuantileTransformer_fit
                   sample_QuantileTransformer_fit
                   ["CCO"] [[-2; 2; 6]%Q] (Some [[0.2; 0.4]%Q])
                   "MinMaxScaler" "QuantileTransformer" _ _));
    discriminate.
Defined.

(** C1 at a failing input. Through [preprocessing_attributions] with the
    min-max strategy, the scores -1, 1, 3 of one molecule (pooled minimum
    -1, pooled maximum 3) come out as -1, 0, 1: the first is below 0, and
    the pooled minimum is not sent to 0. *)
Theorem pipeline_minmax_leaves_unit_interval :
  exists out : vec,
    preprocessing_attributions sample_MolFromSmiles
      sample_QuantileTransformer_fit
      ["CCO"] [[-1; 1; 3]%Q] None "MinMaxScaler" = Ok [out] /\
    Forall2 Qeq out [-1; 0; 1]%Q /\
    Exists (fun y => (y < 0)%Q) out.
Proof.
  eexists. split; [vm_compute; reflexivity|].
  split; [repeat constructor|].
  apply Exists_cons_hd. reflexivity.
Qed.

(** The direct call with [positive] false does what C1 says: the sibling
    path of the one above. *)

Lemma Qmin_cases (a b : Q) : Qmin a b = a \/ Qmin a b = b.
Proof.
  unfold Qmin, GenericMinMax.gmin. destruct (a ?= b)%Q; auto.
Qed.

Lemma Qmax_cases (a b : Q) : Qmax a b = a \/ Qmax a b = b.
Proof.
  unfold Qmax, GenericMinMax.gmax. destruct (a ?= b)%Q; auto.
Qed.

Local Ltac in_cons := rewrite ?elem_of_cons in *; intuition auto.

Lemma fold_left_Qmin_spec (xs : vec) :
  forall x : Q,
    fold_left Qmin xs x ∈ x :: xs /\
    forall y : Q, y ∈ x :: xs -> (fold_left Qmin xs x <= y)%Q.
Proof.
  induction xs as [|a xs IH]; intros x; simpl.
  - split; [in_cons|]. intros y ->%list_elem_of_singleton. apply Qle_refl.
  - destruct (IH (Qmin x a)) as [Hin Hle]. split.
    + apply elem_of_cons in Hin as [Hin|Hin]; [|in_cons].
      rewrite Hin. destruct (Qmin_cases x a) as [->| ->]; in_cons.
    + intros y Hy.
      assert (Hm : (fold_left Qmin xs (Qmin x a) <= Qmin x a)%Q)
        by (apply Hle; in_cons).
      apply elem_of_cons in Hy as [->|Hy].
      * eapply Qle_trans; [exact Hm | apply Q.le_min_l].
      * apply elem_of_cons in Hy as [->|Hy].
        -- eapply Qle_trans; [exact Hm | apply Q.le_min_r].
        -- apply Hle. in_cons.
Qed.

Lemma fold_left_Qmax_spec (xs : vec) :
  forall x : Q,
    fold_left Qmax xs x ∈ x :: xs /\
    forall y : Q, y ∈ x :: xs -> (y <= fold_left Qmax xs x)%Q.
Proof.
  induction xs as [|a xs IH]; intros x; simpl.
  - split; [in_cons|]. intros y ->%list_elem_of_singleton. apply Qle_refl.
  - destruct (IH (Qmax x a)) as [Hin Hle]. split.
    + apply elem_of_cons in Hin as [Hin|Hin]; [|in_cons].
      rewrite Hin. destruct (Qmax_cases x a) as [->| ->]; in_cons.
    + intros y Hy.
      assert (Hm : (Qmax x a <= fold_left Qmax xs (Qmax x a))%Q)
        by (apply Hle; in_cons).
      apply elem_of_cons in Hy as [->|Hy].
      * eapply Qle_trans; [apply Q.le_max_l | exact Hm].
      * apply elem_of_cons in Hy as [->|Hy].
        -- eapply Qle_trans; [apply Q.le_max_r | exact Hm].
        -- apply Hle. in_cons.
Qed.

(** What [fit] records: the least and the greatest of the pooled values. *)
Lemma MinMaxScaler_fit_bounds (X : vec) (s : MinMaxScaler) :
  MinMaxScaler_fit X = Ok s ->
  data_min_ s ∈ X /\ data_max_ s ∈ X /\
  forall x : Q, x ∈ X -> (data_min_ s <= x <= data_max_ s)%Q.
Proof.
  destruct X as [|x xs]; [discriminate|]. simpl. intros [= <-]. simpl.
  destruct (fold_left_Qmin_spec xs x) as [Hmin Hle].
  destruct (fold_left_Qmax_spec xs x) as [Hmax Hge].
  repeat split; auto.
Qed.

Lemma MinMaxScaler_fit_formula (X : vec) (s : MinMaxScaler) (x : Q) :
  MinMaxScaler_fit X = Ok s ->
  (data_min_ s < data_max_ s)%Q ->
  (x * scale_ s + min_ s
   == (x - data_min_ s) / (data_max_ s - data_min_ s))%Q.
Proof.
  destruct X as [|x0 xs]; [discriminate|]. simpl. intros [= <-]. simpl.
  set (lo := fold_left Qmin xs x0). set (hi := fold_left Qmax xs x0).
  intros Hlt. unfold handle_zeros_in_scale.
  assert (Hr : ~ (hi - lo == 0)%Q) by lra.
  destruct (Qeq_bool (hi - lo) 0) eqn:E.
  - apply Qeq_bool_iff in E. contradiction.
  - field. exact Hr.
Qed.

Lemma transform_all_MinMaxScaler (s : MinMaxScaler) (att_list : list vec) :
  forall new_att : list vec,
    transform_all (MinMaxScaler_transform s) att_list = Ok new_att ->
    new_att = map (map (fun x => (x * scale_ s + min_ s)%Q)) att_list.
Proof.
  induction att_list as [|att rest IH]; intros new_att H; simpl in H.
  - by injection H as <-.
  - inv_bind H. inv_bind H. injection H as <-.
    rewrite (IH _ Ha0). destruct att; [discriminate|].
    by injection Ha as <-.
Qed.

Lemma normalize_minmax_unit_interval
    (QuantileTransformer_fit : vec -> result (vec -> result vec))
    (att_list new_att : list vec) :
  normalize_attributions QuantileTransformer_fit att_list (PyBool false)
    "MinMaxScaler" = Ok new_att ->
  exists s : MinMaxScaler,
    MinMaxScaler_fit (concat att_list) = Ok s /\
    data_min_ s ∈ concat att_list /\ data_max_ s ∈ concat att_list /\
    (forall x : Q,
        x ∈ concat att_list -> (data_min_ s <= x <= data_max_ s)%Q) /\
    new_att = map (map (fun x => (x * scale_ s + min_ s)%Q)) att_list /\
    ((data_min_ s < data_max_ s)%Q ->
     forall x : Q, x ∈ concat att_list ->
       (0 <= x * scale_ s + min_ s <= 1)%Q /\
       ((x == data_max_ s)%Q -> (x * scale_ s + min_ s == 1)%Q) /\
       ((x == data_min_ s)%Q -> (x * scale_ s + min_ s == 0)%Q)).
Proof.
  intros H. rewrite normalize_attributions_else in H by discriminate.
  simpl in H. inv_bind H. inv_bind H.
  destruct att_list as [|att rest]; [discriminate|].
  injection Ha as <-. rename a0 into s.
  destruct (MinMaxScaler_fit_bounds _ _ Ha0) as (Hmin & Hmax & Hb).
  exists s. repeat split; try done.
  - by apply Hb.
  - by apply Hb.
  - by apply transform_all_MinMaxScaler.
  - rewrite (MinMaxScaler_fit_formula _ _ x Ha0 H0).
    apply Qle_shift_div_l; [lra|]. destruct (Hb x H1). lra.
  - rewrite (MinMaxScaler_fit_formula _ _ x Ha0 H0).
    apply Qle_shift_div_r; [lra|]. destruct (Hb x H1). lra.
  - intros E. rewrite (MinMaxScaler_fit_formula _ _ x Ha0 H0).
    rewrite E. field. lra.
  - intros E. rewrite (MinMaxScaler_fit_formula _ _ x Ha0 H0).
    rewrite E. field. lra.
Qed.

(** ** Comparative evaluation *)

Lemma list_index_Ok (x : string) (l : list string) :
  x ∈ l ->
  exists i : nat,
    list_index x l = Ok i /\ l !! i = Some x /\
    forall j : nat, (j < i)%nat -> l !! j <> Some x.
Proof.
  induction l as [|y l IH]; intros Hin.
  - by apply elem_of_nil in Hin.
  - simpl. destruct (decide (y = x)) as [->|Hne].
    + exists 0%nat. split; [done|]. split; [done|]. intros j Hj. lia.
    + apply elem_of_cons in Hin as [->|Hin]; [done|].
      destruct (IH Hin) as (i & -> & Hi & Hfirst).
      exists (S i). split; [done|]. split; [done|].
      intros [|j] Hj; simpl; [congruence|]. apply Hfirst. lia.
Qed.

Lemma list_index_Raise (x : string) (l : list string) :
  x ∉ l -> list_index x l = Raise ValueError.
Proof.
  induction l as [|y l IH]; intros Hin; simpl; [done|].
  apply not_elem_of_cons in Hin as [Hne Hin].
  destruct (decide (y = x)) as [->|_]; [done|].
  by rewrite (IH Hin).
Qed.

Lemma cliff_loop_aligned (smiles_list : list string) (att_probs : list vec)
    (att_true_pair : list pair_record) :
  length att_probs = length smiles_list ->
  Forall (fun r => SMILES_1 r ∈ smiles_list /\ SMILES_2 r ∈ smiles_list)
    att_true_pair ->
  exists (att_probs_reset : list vec) (att_true : list (list Z)),
    cliff_loop smiles_list att_probs att_true_pair
    = Ok (att_probs_reset, att_true) /\
    att_true
    = flat_map (fun r => [attribution_1 r; attribution_2 r]) att_true_pair /\
    length att_probs_reset = (2 * length att_true_pair)%nat /\
    forall (n : nat) (r : pair_record),
      att_true_pair !! n = Some r ->
      exists (idx_1 idx_2 : nat) (p1 p2 : vec),
        resolves smiles_list (SMILES_1 r) idx_1 /\
        resolves smiles_list (SMILES_2 r) idx_2 /\
        att_probs !! idx_1 = Some p1 /\
        att_probs !! idx_2 = Some p2 /\
        att_probs_reset !! (2 * n)%nat = Some p1 /\
        att_probs_reset !! (2 * n + 1)%nat = Some p2.
Proof.
  intros Hlen Hall.
  induction Hall as [|r rest [H1 H2] _ IH].
  - exists [], []. repeat split; try done.
  - destruct IH as (probs & trues & Hloop & Htrue & Hl & Hn).
    destruct (list_index_Ok _ _ H1) as (i1 & E1 & Hi1 & Hf1).
    destruct (list_index_Ok _ _ H2) as (i2 & E2 & Hi2 & Hf2).
    destruct (getitem_lt att_probs i1) as (p1 & G1 & L1).
    { rewrite Hlen. by eapply lookup_lt_Some. }
    destruct (getitem_lt att_probs i2) as (p2 & G2 & L2).
    { rewrite Hlen. by eapply lookup_lt_Some. }
    exists (p1 :: p2 :: probs),
           (attribution_1 r :: attribution_2 r :: trues).
    split; [|split; [|split]].
    + simpl. rewrite E1. simpl. rewrite E2. simpl. rewrite G1. simpl.
      rewrite G2. simpl. rewrite Hloop. reflexivity.
    + simpl. by rewrite Htrue.
    + simpl. lia.
    + intros [|n] r' Hr'; simpl in Hr'.
      * injection Hr' as <-. exists i1, i2, p1, p2.
        repeat split; done.
      * destruct (Hn n r' Hr')
          as (j1 & j2 & q1 & q2 & R1 & R2 & A1 & A2 & B1 & B2).
        exists j1, j2, q1, q2.
        replace (2 * S n)%nat with (S (S (2 * n))) by lia.
        replace (S (S (2 * n)) + 1)%nat with (S (S (2 * n + 1))) by lia.
        repeat split; try done; by destruct R1, R2.
Qed.

(** A pair record with an absent identifier stops the loop with the
    [ValueError] of [list.index]. *)
Lemma cliff_loop_lookup_failure (smiles_list : list string)
    (att_probs : list vec) (att_true_pair : list pair_record) :
  length att_probs = length smiles_list ->
  Exists (fun r => SMILES_1 r ∉ smiles_list \/ SMILES_2 r ∉ smiles_list)
    att_true_pair ->
  cliff_loop smiles_list att_probs att_true_pair = Raise ValueError.
Proof.
  intros Hlen Hex.
  induction att_true_pair as [|r rest IH]; [by inversion Hex|].
  simpl.
  destruct (decide (SMILES_1 r ∈ smiles_list)) as [H1|H1];
    [|by rewrite (list_index_Raise _ _ H1)].
  destruct (list_index_Ok _ _ H1) as (i1 & -> & Hi1 & _). simpl.
  destruct (decide (SMILES_2 r ∈ smiles_list)) as [H2|H2];
    [|by rewrite (list_index_Raise _ _ H2)].
  destruct (list_index_Ok _ _ H2) as (i2 & -> & Hi2 & _). simpl.
  destruct (getitem_lt att_probs i1) as (p1 & -> & _).
  { rewrite Hlen. by eapply lookup_lt_Some. }
  destruct (getitem_lt att_probs i2) as (p2 & -> & _).
  { rewrite Hlen. by eapply lookup_lt_Some. }
  simpl. rewrite IH; [done|].
  inversion Hex as [? ? [?|?]|]; subst; done.
Qed.

Lemma signed_label_spec (att : Q) :
  ((0.5 < att)%Q -> signed_label att = 1%Z) /\
  ((att < -0.5)%Q -> signed_label att = (-1)%Z) /\
  ((-0.5 <= att <= 0.5)%Q -> signed_label att = 0%Z).
Proof.
  unfold signed_label, Qltb.
  destruct (Qle_bool att 0.5) eqn:E1; destruct (Qle_bool (-0.5) att) eqn:E2;
    simpl; repeat split; intros H; try done.
  all: try (apply Qle_bool_iff in E1).
  all: try (apply Qle_bool_iff in E2).
  all: try lra.
  all: try (assert (~ (att <= 0.5)%Q)
              by (intros C; apply Qle_bool_iff in C; congruence); lra).
  all: try (assert (~ (-0.5 <= att)%Q)
              by (intros C; apply Qle_bool_iff in C; congruence); lra).
Qed.

Section CliffFacts.

Variable MolFromSmiles : string -> option Mol.
Variable QuantileTransformer_fit : vec -> result (vec -> result vec).

Lemma preprocessing_attributions_length (smiles_list : list string)
    (atom_importance : list vec) (bond_importance : option (list vec))
    (normalizer : string) (att_probs : list vec) :
  preprocessing_attributions MolFromSmiles QuantileTransformer_fit
    smiles_list atom_importance bond_importance normalizer = Ok att_probs ->
  length att_probs = length smiles_list.
Proof.
  unfold preprocessing_attributions. intros H. inv_bind H.
  rewrite normalize_attributions_else in H by discriminate.
  inv_bind H. inv_bind H.
  rewrite (transform_all_length _ _ _ H).
  by eapply preprocessing_loop_length.
Qed.

End CliffFacts.

Section CliffClaims.

Variable MolFromSmiles : string -> option Mol.
Variable QuantileTransformer_fit : vec -> result (vec -> result vec).
Variable score : Type.
Variable get_optimal_threshold :
  list (list Z) -> list vec -> bool -> result score.
Variable attribution_f1 attribution_accuracy :
  list (list Z) -> list (list Z) -> result (list score).
Variable nanmean : list score -> score.

Let preprocessing := preprocessing_attributions MolFromSmiles
                       QuantileTransformer_fit.
Let evaluate := evaluate_cliffs MolFromSmiles QuantileTransformer_fit score
                  get_optimal_threshold attribution_f1 attribution_accuracy
                  nanmean.

(** C6. In the comparative evaluation, when every pair record names
    molecules of the SMILES list, the loop takes the records in order,
    resolves both identifiers of a record to their (first) positions in the
    list and puts the predicted vectors at these positions, and the two
    true vectors of the record, at places [2n] and [2n+1] of the two flat
    lists (A then B); the metrics then receive these lists, the predicted
    one turned, value by value, into 1 above 0.5, -1 below -0.5 and 0
    otherwise. *)
Theorem evaluate_cliffs_aligns_pairs (smiles_list : list string)
    (att_true_pair : list pair_record) (atom_importance : list vec)
    (bond_importance : option (list vec)) (att_probs : list vec) :
  preprocessing smiles_list atom_importance bond_importance "MinMaxScaler"
  = Ok att_probs ->
  Forall (fun r => SMILES_1 r ∈ smiles_list /\ SMILES_2 r ∈ smiles_list)
    att_true_pair ->
  exists (att_probs_reset : list vec) (att_true : list (list Z)),
    cliff_loop smiles_list att_probs att_true_pair
    = Ok (att_probs_reset, att_true) /\
    att_true
    = flat_map (fun r => [attribution_1 r; attribution_2 r]) att_true_pair /\
    length att_probs_reset = (2 * length att_true_pair)%nat /\
    (forall (n : nat) (r : pair_record),
        att_true_pair !! n = Some r ->
        exists (idx_1 idx_2 : nat) (p1 p2 : vec),
          resolves smiles_list (SMILES_1 r) idx_1 /\
          resolves smiles_list (SMILES_2 r) idx_2 /\
          att_probs !! idx_1 = Some p1 /\
          att_probs !! idx_2 = Some p2 /\
          att_probs_reset !! (2 * n)%nat = Some p1 /\
          att_probs_reset !! (2 * n + 1)%nat = Some p2) /\
    evaluate smiles_list att_true_pair atom_importance bond_importance
    = (opt_threshold ← get_optimal_threshold att_true att_probs_reset true;
       f1 ← attribution_f1 att_true
              (map (map signed_label) att_probs_reset);
       acc ← attribution_accuracy att_true
               (map (map signed_label) att_probs_reset);
       mret ([("ATT F1", nanmean f1); ("ATT ACC", nanmean acc)],
             opt_threshold)) /\
    forall att : Q,
      ((0.5 < att)%Q -> signed_label att = 1%Z) /\
      ((att < -0.5)%Q -> signed_label att = (-1)%Z) /\
      ((-0.5 <= att <= 0.5)%Q -> signed_label att = 0%Z).
Proof.
  intros Hpre Hall.
  pose proof (preprocessing_attributions_length _ _ _ _ _ _ _ Hpre) as Hlen.
  destruct (cliff_loop_aligned smiles_list att_probs att_true_pair Hlen Hall)
    as (probs & trues & Hloop & Htrue & Hl & Hn).
  exists probs, trues.
  split; [exact Hloop|]. split; [exact Htrue|]. split; [exact Hl|].
  split; [exact Hn|]. split; [|exact signed_label_spec].
  unfold evaluate, evaluate_cliffs. unfold preprocessing in Hpre.
  rewrite Hpre. simpl. rewrite Hloop. reflexivity.
Qed.

(** C7. In the comparative evaluation, a pair record that names a molecule
    identifier absent from the SMILES list makes the whole call raise: the
    loop stops with the [ValueError] of [list.index] for every list of
    predicted vectors that matches the SMILES list, so the call returns
    neither statistics nor a threshold. *)
Theorem evaluate_cliffs_lookup_failure (smiles_list : list string)
    (att_true_pair : list pair_record) (atom_importance : list vec)
    (bond_importance : option (list vec)) :
  Exists (fun r => SMILES_1 r ∉ smiles_list \/ SMILES_2 r ∉ smiles_list)
    att_true_pair ->
  (exists e : exn,
      evaluate smiles_list att_true_pair atom_importance bond_importance
      = Raise e) /\
  (forall att_probs : list vec,
      preprocessing smiles_list atom_importance bond_importance
        "MinMaxScaler" = Ok att_probs ->
      cliff_loop smiles_list att_probs att_true_pair = Raise ValueError /\
      evaluate smiles_list att_true_pair atom_importance bond_importance
      = Raise ValueError).
Proof.
  intros Hex.
  assert (Hok : forall att_probs : list vec,
    preprocessing smiles_list atom_importance bond_importance
      "MinMaxScaler" = Ok att_probs ->
    cliff_loop smiles_list att_probs att_true_pair = Raise ValueError /\
    evaluate smiles_list att_true_pair atom_importance bond_importance
    = Raise ValueError).
  { intros att_probs Hpre.
    pose proof (preprocessing_attributions_length _ _ _ _ _ _ _ Hpre) as Hlen.
    pose proof (cliff_loop_lookup_failure _ _ _ Hlen Hex) as Hloop.
    split; [exact Hloop|].
    unfold evaluate, evaluate_cliffs. unfold preprocessing in Hpre.
    rewrite Hpre. simpl. rewrite Hloop. reflexivity. }
  split; [|exact Hok].
  destruct (preprocessing smiles_list atom_importance bond_importance
              "MinMaxScaler") as [att_probs|e] eqn:Hpre.
  - exists ValueError. by apply (Hok att_probs).
  - exists e. unfold evaluate, evaluate_cliffs. unfold preprocessing in Hpre.
    by rewrite Hpre.
Qed.

End CliffClaims.

Lemma evaluate_cliffs_aligns_pairs_witness :
  exists (att_probs att_probs_reset : list vec) (att_true : list (list Z)),
    preprocessing_attributions sample_MolFromSmiles
      sample_QuantileTransformer_fit ["CCO"; "CC"]
      [[1; 3; 5]%Q; [2; 4]%Q] None "MinMaxScaler" = Ok att_probs /\
    cliff_loop ["CCO"; "CC"] att_probs
      [{| SMILES_1 := "CC"; SMILES_2 := "CCO";
          attribution_1 := [0; 1]%Z; attribution_2 := [0; 0; 1]%Z |}]
    = Ok (att_probs_reset, att_true) /\
    att_true = [[0; 1]%Z; [0; 0; 1]%Z].
Proof.
  eexists.
  edestruct (evaluate_cliffs_aligns_pairs sample_MolFromSmiles
               sample_QuantileTransformer_fit Q sample_threshold
               sample_metric sample_metric sample_mean
               ["CCO"; "CC"]
               [{| SMILES_1 := "CC"; SMILES_2 := "CCO";
                   attribution_1 := [0; 1]%Z;
                   attribution_2 := [0; 0; 1]%Z |}]
               [[1; 3; 5]%Q; [2; 4]%Q] None)
    as (probs & trues & Hloop & Htrue & _).
  - vm_compute. reflexivity.
  - repeat constructor; simpl; rewrite !elem_of_cons; auto.
  - exists probs, trues. split; [reflexivity|].
    split; [exact Hloop | exact Htrue].
Defined.

Lemma evaluate_cliffs_lookup_failure_witness :
  exists e : exn,
    evaluate_cliffs sample_MolFromSmiles sample_QuantileTransformer_fit Q
      sample_threshold sample_metric sample_metric sample_mean
      ["CCO"; "CC"]
      [{| SMILES_1 := "CC"; SMILES_2 := "CCN";
          attribution_1 := [0; 1]%Z; attribution_2 := [0; 0; 1]%Z |}]
      [[1; 3; 5]%Q; [2; 4]%Q] None
    = Raise e.
Proof.
  refine (proj1 (evaluate_cliffs_lookup_failure sample_MolFromSmiles
                   sample_QuantileTransformer_fit Q sample_threshold
                   sample_metric sample_metric sample_mean
                   ["CCO"; "CC"]
                   [{| SMILES_1 := "CC"; SMILES_2 := "CCN";
                       attribution_1 := [0; 1]%Z;
                       attribution_2 := [0; 0; 1]%Z |}]
                   [[1; 3; 5]%Q; [2; 4]%Q] None _)).
  apply Exists_cons_hd. right. simpl.
  rewrite !elem_of_cons, elem_of_nil. intros [H|[H|[]]]; discriminate H.
Defined.

(** ** Colouring *)

Lemma Qltb_lt (x y : Q) : Qltb x y = true <-> (x < y)%Q.
Proof.
  unfold Qltb. rewrite negb_true_iff. split.
  - intros H. apply Qnot_le_lt. intros C. apply Qle_bool_iff in C. congruence.
  - intros H. destruct (Qle_bool y x) eqn:E; [|done].
    apply Qle_bool_iff in E. lra.
Qed.

Lemma Qltb_ge (x y : Q) : Qltb x y = false <-> (y <= x)%Q.
Proof.
  unfold Qltb. rewrite negb_false_iff. apply Qle_bool_iff.
Qed.

(** What one step leaves behind: the colour of [idx] is set exactly when
    the value is beyond [eps] on either side, the note of [idx] exactly when
    it is below [- eps] and notes are asked for; nothing else moves. *)
Lemma atom_col_step_spec (idx : nat) (v eps : Q) (set_weights : bool)
    (atom_col atom_col' : gmap nat color) (cp cp' : Mol) :
  atom_col_step idx v eps set_weights atom_col cp = Ok (atom_col', cp') ->
  NumAtoms cp' = NumAtoms cp /\ GetBonds cp' = GetBonds cp /\
  atom_col' !! idx
  = (if Qltb eps v || Qltb v (- eps) then Some RED_COL
     else atom_col !! idx) /\
  atomNote cp' !! idx
  = (if Qltb v (- eps) && set_weights then Some (format_3f v)
     else atomNote cp !! idx) /\
  forall k : nat, k <> idx ->
    atom_col' !! k = atom_col !! k /\ atomNote cp' !! k = atomNote cp !! k.
Proof.
  unfold atom_col_step, SetAtomNote.
  destruct (Qltb eps v), (Qltb v (- eps)), set_weights; simpl;
    try destruct (decide (idx < NumAtoms cp)%nat); simpl;
    intros [= <- <-]; simpl;
    rewrite ?lookup_insert_eq;
    (split; [done|]); (split; [done|]); (split; [done|]); (split; [done|]);
    intros k Hk; rewrite ?lookup_insert_ne by done; done.
Qed.

Lemma atom_col_step_Ok (idx : nat) (v eps : Q) (set_weights : bool)
    (atom_col : gmap nat color) (cp : Mol) :
  (idx < NumAtoms cp)%nat ->
  exists (atom_col' : gmap nat color) (cp' : Mol),
    atom_col_step idx v eps set_weights atom_col cp = Ok (atom_col', cp').
Proof.
  intros Hidx. unfold atom_col_step, SetAtomNote.
  destruct (decide (idx < NumAtoms cp)%nat); [|done].
  destruct (Qltb v (- eps)), set_weights; simpl; eauto.
Qed.

Lemma atom_col_loop_Ok (atom_importance : vec) (eps : Q)
    (set_weights : bool) :
  forall (idx : nat) (atom_col : gmap nat color) (cp : Mol),
    (idx + length atom_importance <= NumAtoms cp)%nat ->
    exists (atom_col' : gmap nat color) (cp' : Mol),
      atom_col_loop idx atom_importance eps set_weights atom_col cp
      = Ok (atom_col', cp').
Proof.
  induction atom_importance as [|v rest IH]; intros idx atom_col cp Hlen;
    simpl in *.
  - eauto.
  - destruct (atom_col_step_Ok idx v eps set_weights atom_col cp)
      as (ac1 & cp1 & E); [lia|].
    rewrite E. simpl.
    destruct (atom_col_step_spec _ _ _ _ _ _ _ _ E) as (Hn & _).
    apply IH. rewrite Hn. lia.
Qed.

Lemma atom_col_loop_spec (atom_importance : vec) (eps : Q)
    (set_weights : bool) :
  forall (idx : nat) (atom_col atom_col' : gmap nat color) (cp cp' : Mol),
    atom_col_loop idx atom_importance eps set_weights atom_col cp
    = Ok (atom_col', cp') ->
    (forall (n : nat) (v : Q),
        atom_importance !! n = Some v ->
        atom_col' !! (idx + n)%nat
        = (if Qltb eps v || Qltb v (- eps) then Some RED_COL
           else atom_col !! (idx + n)%nat) /\
        atomNote cp' !! (idx + n)%nat
        = (if Qltb v (- eps) && set_weights then Some (format_3f v)
           else atomNote cp !! (idx + n)%nat)) /\
    (forall k : nat,
        (k < idx \/ idx + length atom_importance <= k)%nat ->
        atom_col' !! k = atom_col !! k /\
        atomNote cp' !! k = atomNote cp !! k).
Proof.
  induction atom_importance as [|v rest IH];
    intros idx atom_col atom_col' cp cp' H; simpl in H.
  - injection H as <- <-. split; [intros n v Hn; discriminate | done].
  - inv_bind H. destruct a as [ac1 cp1]. simpl in H.
    destruct (atom_col_step_spec _ _ _ _ _ _ _ _ Ha)
      as (_ & _ & Hc & Hnote & Hother).
    destruct (IH _ _ _ _ _ H) as [Hin Hout]. split.
    + intros [|n] v' Hn; simpl in Hn.
      * injection Hn as <-. rewrite Nat.add_0_r.
        destruct (Hout idx) as [-> ->]; [lia|]. done.
      * replace (idx + S n)%nat with (S idx + n)%nat by lia.
        destruct (Hin n v' Hn) as [-> ->].
        destruct (Hother (S idx + n)%nat) as [-> ->]; [lia|]. done.
    + intros k Hk. simpl in Hk.
      destruct (Hout k) as [-> ->]; [lia|].
      apply Hother. lia.
Qed.

(** The colour map is a function of the importance vector and of [eps]
    alone. *)
Lemma determine_atom_col_lookup (cp cp' : Mol) (atom_importance : vec)
    (eps : Q) (set_weights : bool) (atom_col : gmap nat color) :
  determine_atom_col cp atom_importance eps set_weights
  = Ok (atom_col, cp') ->
  forall idx : nat,
    atom_col !! idx
    = match atom_importance !! idx with
      | Some v =>
          if Qltb eps v || Qltb v (- eps) then Some RED_COL else None
      | None => None
      end.
Proof.
  intros H idx. destruct (atom_col_loop_spec _ _ _ _ _ _ _ _ H) as [Hin Hout].
  destruct (atom_importance !! idx) as [v|] eqn:E.
  - destruct (Hin idx v E) as [Hc _]. simpl in Hc. by rewrite Hc.
  - apply lookup_ge_None in E. destruct (Hout idx) as [-> _]; [lia|done].
Qed.

(** The three decimals that [format_3f] prints are those of the value
    rounded to the nearest thousandth. *)
Lemma round_half_even_near (q : Q) :
  (Qabs (inject_Z (round_half_even q) - q) <= 1 # 2)%Q.
Proof.
  unfold round_half_even.
  pose proof (Qfloor_le q) as Hlo. pose proof (Qlt_floor q) as Hhi.
  rewrite inject_Z_plus in Hhi. change (inject_Z 1) with 1%Q in Hhi.
  apply Qabs_Qle_condition.
  destruct (q - inject_Z (Qfloor q) ?= 1 # 2)%Q eqn:E.
  - apply Qeq_alt in E. destruct (Z.even (Qfloor q)).
    + lra.
    + rewrite inject_Z_plus. change (inject_Z 1) with 1%Q. lra.
  - apply Qlt_alt in E. lra.
  - apply Qgt_alt in E. rewrite inject_Z_plus.
    change (inject_Z 1) with 1%Q. lra.
Qed.

Lemma format_3f_three_decimals (v : Q) :
  exists n : Z,
    n = round_half_even (Qabs v * 1000) /\
    (Qabs (inject_Z n - Qabs v * 1000) <= 1 # 2)%Q /\
    format_3f v
    = ((if Qltb v 0 then "-" else "")
       +:+ pretty (Z.to_N (n / 1000)) +:+ "." +:+ decimals3 n)%string /\
    String.length (decimals3 n) = 3%nat.
Proof.
  exists (round_half_even (Qabs v * 1000)).
  split; [done|]. split; [apply round_half_even_near|]. split; done.
Qed.



Lemma bond_col_loop_spec (atom_col : gmap nat color)
    (bonds : list (nat * nat)) :
  forall (idx : nat) (bond_col : gmap nat color),
    (forall (n : nat) (b : nat * nat),
        bonds !! n = Some b ->
        bond_col_loop idx bonds atom_col bond_col !! (idx + n)%nat
        = match atom_col !! b.1, atom_col !! b.2 with
          | Some ci, Some cj =>
              if decide (ci = cj) then Some ci
              else bond_col !! (idx + n)%nat
          | _, _ => bond_col !! (idx + n)%nat
          end) /\
    (forall k : nat,
        (k < idx \/ idx + length bonds <= k)%nat ->
        bond_col_loop idx bonds atom_col bond_col !! k = bond_col !! k).
Proof.
  induction bonds as [|[i j] rest IH]; intros idx bond_col; simpl.
  - split; [intros n b Hn; discriminate | done].
  - set (bc1 := match atom_col !! i, atom_col !! j with
                | Some ci, Some cj =>
                    if decide (ci = cj) then <[idx:=ci]> bond_col
                    else bond_col
                | _, _ => bond_col
                end).
    destruct (IH (S idx) bc1) as [Hin Hout].
    assert (Hother : forall k : nat, k <> idx -> bc1 !! k = bond_col !! k).
    { intros k Hk. unfold bc1.
      destruct (atom_col !! i) as [ci|], (atom_col !! j) as [cj|];
        try done.
      destruct (decide (ci = cj)); [|done].
      by rewrite lookup_insert_ne. }
    split.
    + intros [|n] b Hn; simpl in Hn.
      * injection Hn as <-. simpl. rewrite Nat.add_0_r.
        rewrite Hout by lia. unfold bc1.
        destruct (atom_col !! i) as [ci|], (atom_col !! j) as [cj|];
          try done.
        destruct (decide (ci = cj)); [|done].
        by rewrite lookup_insert_eq.
      * replace (idx + S n)%nat with (S idx + n)%nat by lia.
        rewrite (Hin n b Hn), Hother by lia. done.
    + intros k Hk. rewrite Hout by lia. apply Hother. lia.
Qed.

(** C10. A bond gets a colour exactly when both its endpoints have one and
    the two are equal, and it is that colour; a bond with an endpoint
    without colour, or with endpoints of different colours, and every index
    that is no bond, is absent from the bond colouring. *)
Theorem bond_colouring (atom_col : gmap nat color) (mol : Mol) :
  (forall (idx : nat) (c : color),
      determine_bond_col atom_col mol !! idx = Some c <->
      exists i j : nat,
        GetBonds mol !! idx = Some (i, j) /\
        atom_col !! i = Some c /\ atom_col !! j = Some c) /\
  (forall idx i j : nat,
      GetBonds mol !! idx = Some (i, j) ->
      atom_col !! i = None \/ atom_col !! j = None \/
      atom_col !! i <> atom_col !! j ->
      determine_bond_col atom_col mol !! idx = None).
Proof.
  unfold determine_bond_col.
  destruct (bond_col_loop_spec atom_col (GetBonds mol) 0 ∅) as [Hin Hout].
  assert (Hiff : forall (idx : nat) (c : color),
    bond_col_loop 0 (GetBonds mol) atom_col ∅ !! idx = Some c <->
    exists i j : nat,
      GetBonds mol !! idx = Some (i, j) /\
      atom_col !! i = Some c /\ atom_col !! j = Some c).
  { intros idx c. destruct (GetBonds mol !! idx) as [[i j]|] eqn:E.
    - rewrite (Hin idx (i, j) E : _ !! idx = _). simpl.
      rewrite lookup_empty. split.
      + destruct (atom_col !! i) as [ci|] eqn:Ei;
          destruct (atom_col !! j) as [cj|] eqn:Ej; try done.
        destruct (decide (ci = cj)) as [->|]; [|done].
        intros [= ->]. by exists i, j.
      + intros (i' & j' & [= <- <-] & -> & ->).
        by rewrite decide_True.
    - apply lookup_ge_None in E. rewrite Hout, lookup_empty by lia. split.
      + done.
      + by intros (i & j & ? & _). }
  split; [exact Hiff|].
  intros idx i j Hb Hbad.
  destruct (bond_col_loop 0 (GetBonds mol) atom_col ∅ !! idx) as [c|] eqn:E;
    [|done].
  apply Hiff in E as (i' & j' & Hb' & Hi & Hj).
  rewrite Hb in Hb'. injection Hb' as <- <-.
  rewrite Hi, Hj in Hbad. destruct Hbad as [?|[?|?]]; done.
Qed.

Lemma bond_colouring_witness :
  determine_bond_col {[ 0%nat := RED_COL; 1%nat := RED_COL ]} ethanol
    !! 1%nat = None.
Proof.
  refine (proj2 (bond_colouring {[ 0%nat := RED_COL; 1%nat := RED_COL ]}
                   ethanol) 1%nat 1%nat 2%nat _ _).
  - reflexivity.
  - right. left. reflexivity.
Defined.

(** * Further properties *)

(** ** The fitted min-max transform *)

Lemma MinMaxScaler_fit_scale (X : vec) (s : MinMaxScaler) :
  MinMaxScaler_fit X = Ok s ->
  (0 < scale_ s)%Q /\
  (data_min_ s <= data_max_ s)%Q /\
  ((data_max_ s - data_min_ s) * scale_ s <= 1)%Q /\
  forall x : Q, (x * scale_ s + min_ s == (x - data_min_ s) * scale_ s)%Q.
Proof.
  intros Hfit.
  destruct (MinMaxScaler_fit_bounds _ _ Hfit) as (Hmin & _ & Hb).
  assert (Hle : (data_min_ s <= data_max_ s)%Q) by apply (Hb _ Hmin).
  destruct X as [|x0 xs]; [discriminate|]. simpl in Hfit.
  injection Hfit as <-. simpl in *.
  set (lo := fold_left Qmin xs x0) in *.
  set (hi := fold_left Qmax xs x0) in *.
  unfold handle_zeros_in_scale.
  destruct (Qeq_bool (hi - lo) 0) eqn:E.
  - apply Qeq_bool_iff in E.
    split; [reflexivity|]. split; [exact Hle|]. split.
    + assert (H1 : ((hi - lo) * ((1 - 0) / 1) == hi - lo)%Q) by field.
      rewrite H1. lra.
    + intros x. ring.
  - assert (Hr : (0 < hi - lo)%Q).
    { destruct (Qlt_le_dec 0 (hi - lo)) as [?|Hc]; [done|].
      assert (Hz : (hi - lo == 0)%Q) by lra.
      apply Qeq_bool_iff in Hz. congruence. }
    split; [apply Qlt_shift_div_l; [exact Hr | lra]|].
    split; [exact Hle|]. split.
    + assert (Hone : ((hi - lo) * ((1 - 0) / (hi - lo)) == 1)%Q)
        by (field; lra).
      rewrite Hone. apply Qle_refl.
    + intros x. ring.
Qed.

Lemma MinMaxScaler_value_bounds (X : vec) (s : MinMaxScaler) (x : Q) :
  MinMaxScaler_fit X = Ok s ->
  (data_min_ s <= x <= data_max_ s)%Q ->
  (0 <= x * scale_ s + min_ s <= 1)%Q.
Proof.
  intros Hfit [Hlo Hhi].
  destruct (MinMaxScaler_fit_scale _ _ Hfit) as (Hs & _ & Hone & Hform).
  rewrite (Hform x). split.
  - apply Qmult_le_0_compat; lra.
  - eapply Qle_trans; [|exact Hone].
    apply Qmult_le_compat_r; lra.
Qed.


Lemma MinMaxScaler_below_min (X : vec) (s : MinMaxScaler) (x : Q) :
  MinMaxScaler_fit X = Ok s ->
  (x < data_min_ s)%Q -> (x * scale_ s + min_ s < 0)%Q.
Proof.
  intros Hfit Hx.
  destruct (MinMaxScaler_fit_scale _ _ Hfit) as (Hs & _ & _ & Hform).
  rewrite (Hform x).
  assert (H0 : (0 * scale_ s == 0)%Q) by ring.
  rewrite <- H0. apply Qmult_lt_compat_r; [exact Hs | lra].
Qed.

Lemma positive_values_spec (all_values : vec) (x : Q) :
  x ∈ positive_values all_values <-> x ∈ all_values /\ (0 < x)%Q.
Proof.
  unfold positive_values. rewrite !list_elem_of_In, filter_In.
  by rewrite Qltb_lt.
Qed.

(** ** Normalization with the min-max scaler *)

Lemma transform_all_MinMaxScaler_nonempty (s : MinMaxScaler)
    (att_list new_att : list vec) :
  transform_all (MinMaxScaler_transform s) att_list = Ok new_att ->
  Forall (fun att : vec => att <> []) att_list.
Proof.
  revert new_att. induction att_list as [|att rest IH]; intros new_att H.
  - constructor.
  - simpl in H. inv_bind H. inv_bind H. constructor; [|by eapply IH].
    intros ->. discriminate.
Qed.

Lemma transform_all_MinMaxScaler_Raise (s : MinMaxScaler)
    (att_list : list vec) (e : exn) :
  transform_all (MinMaxScaler_transform s) att_list = Raise e ->
  e = ValueError.
Proof.
  induction att_list as [|att rest IH]; simpl; [discriminate|].
  destruct att as [|x att]; simpl; [congruence|].
  destruct (transform_all _ rest); simpl; [discriminate|].
  intros [= <-]. by apply IH.
Qed.

Section MinMaxFacts.

Variable QuantileTransformer_fit : vec -> result (vec -> result vec).

(** The values the scaler is fitted on. *)
Let fitted_on (att_list : list vec) (positive : pyval) : vec :=
  if truthy positive then positive_values (concat att_list)
  else concat att_list.

Lemma normalize_minmax_inv (att_list new_att : list vec) (positive : pyval)
    (normalizer : string) :
  normalizer <> "QuantileTransformer" ->
  normalize_attributions QuantileTransformer_fit att_list positive normalizer
  = Ok new_att ->
  exists s : MinMaxScaler,
    MinMaxScaler_fit (fitted_on att_list positive) = Ok s /\
    new_att = map (map (fun x => (x * scale_ s + min_ s)%Q)) att_list /\
    att_list <> [] /\
    Forall (fun att : vec => att <> []) att_list.
Proof.
  intros Hne H. rewrite normalize_attributions_else in H by done.
  inv_bind H. inv_bind H.
  destruct att_list as [|att rest]; [discriminate|].
  injection Ha as <-. exists a0. split; [exact Ha0|]. split.
  - by apply transform_all_MinMaxScaler.
  - split; [done|]. by eapply transform_all_MinMaxScaler_nonempty.
Qed.



(** X3. With a name other than ["QuantileTransformer"], normalization
    returns exactly when the list of vectors is not empty, no vector of it
    is empty and, if [positive] counts as true, some pooled value is
    strictly positive; every exception it raises is a [ValueError]. *)
Theorem normalize_minmax_returns_iff (att_list : list vec)
    (positive : pyval) (normalizer : string) :
  normalizer <> "QuantileTransformer" ->
  ((exists new_att : list vec,
       normalize_attributions QuantileTransformer_fit att_list positive
         normalizer = Ok new_att) <->
   att_list <> [] /\
   Forall (fun att : vec => att <> []) att_list /\
   (truthy positive = true ->
    Exists (fun x => (0 < x)%Q) (concat att_list))) /\
  (forall e : exn,
      normalize_attributions QuantileTransformer_fit att_list positive
        normalizer = Raise e -> e = ValueError).
Proof.
  intros Hne. split; [split|].
  - intros [new_att H].
    destruct (normalize_minmax_inv _ _ _ _ Hne H)
      as (s & Hfit & _ & Hnil & Hall).
    split; [exact Hnil|]. split; [exact Hall|].
    intros Hpos. unfold fitted_on in Hfit. rewrite Hpos in Hfit.
    destruct (MinMaxScaler_fit_bounds _ _ Hfit) as (Hmin & _ & _).
    apply positive_values_spec in Hmin as [Hin Hgt].
    apply Exists_exists. eauto.
  - intros (Hnil & Hall & Hpos).
    rewrite normalize_attributions_else by done.
    destruct (concatenate_Ok att_list Hnil Hall) as (all_values & E & Hv).
    rewrite E. simpl.
    assert (Hall_eq : all_values = concat att_list).
    { destruct att_list; [done|]. by injection E as <-. }
    destruct (MinMaxScaler_fit_Ok
                (if truthy positive then positive_values all_values
                 else all_values)) as [s Hs].
    { destruct (truthy positive); [|exact Hv].
      specialize (Hpos eq_refl). apply Exists_exists in Hpos as (x & Hx & Hgt).
      intros Hemp.
      assert (Hin : x ∈ positive_values all_values).
      { apply positive_values_spec. by rewrite Hall_eq. }
      rewrite Hemp in Hin. by apply elem_of_nil in Hin. }
    rewrite Hs. simpl.
    by apply MinMaxScaler_transform_all_Ok.
  - intros e H. rewrite normalize_attributions_else in H by done.
    destruct att_list as [|att rest]; [by injection H as <-|].
    simpl in H.
    destruct (MinMaxScaler_fit _) as [s|e'] eqn:Hfit; simpl in H.
    + exact (transform_all_MinMaxScaler_Raise s (att :: rest) e H).
    + injection H as <-. unfold MinMaxScaler_fit in Hfit.
      destruct (if truthy positive then _ else _); [|discriminate].
      by injection Hfit as <-.
Qed.

End MinMaxFacts.



Lemma normalize_minmax_returns_iff_witness :
  exists new_att : list vec,
    normalize_attributions sample_QuantileTransformer_fit
      [[-2; 4]%Q; [0]%Q] (PyBool true) "MinMaxScaler" = Ok new_att.
Proof.
  refine (proj2 (proj1 (normalize_minmax_returns_iff
                          sample_QuantileTransformer_fit
                          [[-2; 4]%Q; [0]%Q] (PyBool true) "MinMaxScaler"
                          _)) _).
  - discriminate.
  - split; [discriminate|]. split.
    + repeat constructor; discriminate.
    + intros _. apply Exists_cons_tl, Exists_cons_hd. reflexivity.
Defined.

(** ** The preprocessing pipeline *)

Section PreprocessingFacts.

Variable MolFromSmiles : string -> option Mol.
Variable QuantileTransformer_fit : vec -> result (vec -> result vec).

Lemma preprocessing_loop_shapes (smiles_list : list string)
    (atom_importance : list vec) (bond_importance : option (list vec)) :
  forall (idx : nat) (att_probs : list vec),
    preprocessing_loop MolFromSmiles idx smiles_list atom_importance
      bond_importance = Ok att_probs ->
    forall k : nat,
      (k < length smiles_list)%nat ->
      exists atom_imp att : vec,
        atom_importance !! (idx + k)%nat = Some atom_imp /\
        att_probs !! k = Some att /\
        length att = length atom_imp.
Proof.
  induction smiles_list as [|s rest IH]; intros idx att_probs H k Hk;
    simpl in *; [lia|].
  inv_bind H. inv_bind H. inv_bind H. injection H as <-.
  apply getitem_Ok in Ha. destruct k as [|k].
  - exists a, a0. rewrite Nat.add_0_r. split; [done|]. split; [done|].
    destruct bond_importance as [bi|].
    + inv_bind Ha0. inv_bind Ha0. by eapply aggregate_loop_length.
    + by injection Ha0 as <-.
  - destruct (IH _ _ Ha1 k) as (ai & att & H1 & H2 & H3); [lia|].
    exists ai, att. replace (idx + S k)%nat with (S idx + k)%nat by lia.
    done.
Qed.

Lemma preprocessing_loop_None_Raise (smiles_list : list string)
    (atom_importance : list vec) :
  forall (idx : nat) (e : exn),
    preprocessing_loop MolFromSmiles idx smiles_list atom_importance None
    = Raise e -> e = IndexError.
Proof.
  induction smiles_list as [|s rest IH]; intros idx e H; simpl in H;
    [discriminate|].
  unfold getitem in H. destruct (atom_importance !! idx); simpl in H.
  - destruct (preprocessing_loop _ _ rest _ _) eqn:E; simpl in H;
      [discriminate|].
    injection H as <-. by eapply IH.
  - by injection H as <-.
Qed.

(** X4. Through [preprocessing_attributions] with a non-empty
    [normalizer], one function is applied to all aggregated scores; it
    sends every strictly positive score into [0, 1] and every score that
    is zero or negative to a strictly negative value. *)
Theorem preprocessing_sign_partition (smiles_list : list string)
    (atom_importance : list vec) (bond_importance : option (list vec))
    (normalizer : string) (out : list vec) :
  normalizer <> "" ->
  preprocessing_attributions MolFromSmiles QuantileTransformer_fit
    smiles_list atom_importance bond_importance normalizer = Ok out ->
  exists (att_probs : list vec) (f : Q -> Q),
    preprocessing_loop MolFromSmiles 0 smiles_list atom_importance
      bond_importance = Ok att_probs /\
    out = map (map f) att_probs /\
    forall x : Q, x ∈ concat att_probs ->
      ((0 < x)%Q -> (0 <= f x <= 1)%Q) /\
      ((x <= 0)%Q -> (f x < 0)%Q).
Proof.
  intros Hn H. unfold preprocessing_attributions in H. inv_bind H.
  assert (Hne : "MinMaxScaler" <> "QuantileTransformer") by discriminate.
  destruct (normalize_minmax_inv _ _ _ _ _ Hne H) as (s & Hfit & Hmap & _).
  rewrite (truthy_PyStr _ Hn) in Hfit.
  destruct (MinMaxScaler_fit_bounds _ _ Hfit) as (Hmin & _ & Hb).
  apply positive_values_spec in Hmin as [_ Hmin].
  exists a, (fun x => (x * scale_ s + min_ s)%Q).
  split; [done|]. split; [exact Hmap|].
  intros x Hx. split.
  - intros Hgt. eapply MinMaxScaler_value_bounds; [exact Hfit|].
    apply Hb. by apply positive_values_spec.
  - intros Hle. eapply MinMaxScaler_below_min; [exact Hfit | lra].
Qed.

(** X5. When [preprocessing_attributions] returns, it returns one vector
    for each SMILES string, as long as the atom importance array of the
    same position. *)
Theorem preprocessing_keeps_shape (smiles_list : list string)
    (atom_importance : list vec) (bond_importance : option (list vec))
    (normalizer : string) (out : list vec) :
  preprocessing_attributions MolFromSmiles QuantileTransformer_fit
    smiles_list atom_importance bond_importance normalizer = Ok out ->
  length out = length smiles_list /\
  forall k : nat,
    (k < length smiles_list)%nat ->
    exists atom_imp att : vec,
      atom_importance !! k = Some atom_imp /\
      out !! k = Some att /\
      length att = length atom_imp.
Proof.
  intros H. split; [by eapply preprocessing_attributions_length|].
  unfold preprocessing_attributions in H. inv_bind H.
  assert (Hne : "MinMaxScaler" <> "QuantileTransformer") by discriminate.
  destruct (normalize_minmax_inv _ _ _ _ _ Hne H) as (s & _ & -> & _).
  intros k Hk.
  destruct (preprocessing_loop_shapes _ _ _ _ _ Ha k Hk)
    as (ai & att & H1 & H2 & H3).
  exists ai, (map (fun x => (x * scale_ s + min_ s)%Q) att).
  split; [done|]. split.
  - by rewrite list_lookup_fmap, H2.
  - by rewrite length_map.
Qed.

(** X6. An empty SMILES list makes [preprocessing_attributions] raise
    [ValueError]; fewer atom importance arrays than SMILES strings make
    it raise, and without bond importance the exception is
    [IndexError]. *)
Theorem preprocessing_input_errors :
  (forall (atom_importance : list vec) (bond_importance : option (list vec))
          (normalizer : string),
      preprocessing_attributions MolFromSmiles QuantileTransformer_fit
        [] atom_importance bond_importance normalizer = Raise ValueError) /\
  (forall (smiles_list : list string) (atom_importance : list vec)
          (bond_importance : option (list vec)) (normalizer : string),
      (length atom_importance < length smiles_list)%nat ->
      (exists e : exn,
          preprocessing_attributions MolFromSmiles QuantileTransformer_fit
            smiles_list atom_importance bond_importance normalizer
          = Raise e) /\
      preprocessing_attributions MolFromSmiles QuantileTransformer_fit
        smiles_list atom_importance None normalizer = Raise IndexError).
Proof.
  split; [done|].
  intros smiles_list atom_importance bond_importance normalizer Hlen.
  assert (Hloop : forall bi : option (list vec),
    exists e : exn,
      preprocessing_loop MolFromSmiles 0 smiles_list atom_importance bi
      = Raise e).
  { intros bi.
    destruct (preprocessing_loop _ _ _ _ bi) as [probs|e] eqn:E; [|eauto].
    destruct (preprocessing_loop_shapes _ _ _ _ _ E (length atom_importance))
      as (ai & _ & Hai & _); [lia|].
    apply lookup_lt_Some in Hai. simpl in Hai. lia. }
  unfold preprocessing_attributions. split.
  - destruct (Hloop bond_importance) as [e ->]. eauto.
  - destruct (Hloop None) as [e He]. rewrite He.
    by rewrite (preprocessing_loop_None_Raise _ _ _ _ He).
Qed.

End PreprocessingFacts.

(** X7. Without bond importance the molecules are never looked at: the
    result depends on the SMILES list through its length alone and not on
    what RDKit makes of the strings. *)
Theorem preprocessing_without_bonds_ignores_molecules
    (MolFromSmiles MolFromSmiles' : string -> option Mol)
    (QuantileTransformer_fit : vec -> result (vec -> result vec))
    (smiles_list smiles_list' : list string) (atom_importance : list vec)
    (normalizer : string) :
  length smiles_list = length smiles_list' ->
  preprocessing_attributions MolFromSmiles QuantileTransformer_fit
    smiles_list atom_importance None normalizer
  = preprocessing_attributions MolFromSmiles' QuantileTransformer_fit
      smiles_list' atom_importance None normalizer.
Proof.
  intros Hlen. unfold preprocessing_attributions.
  assert (Hloop : forall idx : nat,
    preprocessing_loop MolFromSmiles idx smiles_list atom_importance None
    = preprocessing_loop MolFromSmiles' idx smiles_list' atom_importance
        None).
  { revert smiles_list' Hlen.
    induction smiles_list as [|s rest IH]; intros [|s' rest'] Hlen idx;
      simpl in *; try done.
    rewrite (IH rest') by lia. reflexivity. }
  by rewrite Hloop.
Qed.

(** ** Aggregation once more *)





(** ** The arrays of the caller *)

Section StoreFacts.

Variable MolFromSmiles : string -> option Mol.





End StoreFacts.


(** ** Colouring once more *)

(** X10. Without [set_weights] the colouring never raises and hands the
    molecule back as it was given. *)
Theorem determine_atom_col_without_notes (cp : Mol) (atom_importance : vec)
    (eps : Q) :
  exists atom_col : gmap nat color,
    determine_atom_col cp atom_importance eps false = Ok (atom_col, cp).
Proof.
  unfold determine_atom_col. generalize (∅ : gmap nat color) 0%nat.
  induction atom_importance as [|v rest IH]; intros atom_col idx; simpl.
  - eauto.
  - unfold atom_col_step. destruct (Qltb v (- eps)); simpl; apply IH.
Qed.

Lemma atom_col_step_Raise (idx : nat) (v eps : Q) (set_weights : bool)
    (atom_col : gmap nat color) (cp : Mol) (e : exn) :
  atom_col_step idx v eps set_weights atom_col cp = Raise e ->
  e = RuntimeError /\ set_weights = true /\
  (v < - eps)%Q /\ (NumAtoms cp <= idx)%nat.
Proof.
  unfold atom_col_step, SetAtomNote.
  destruct (Qltb v (- eps)) eqn:E; [|discriminate].
  destruct set_weights; [|discriminate].
  destruct (decide (idx < NumAtoms cp)%nat); simpl; [discriminate|].
  intros [= <-]. apply Qltb_lt in E. repeat split; try done. lia.
Qed.

Lemma atom_col_loop_Raise (atom_importance : vec) (eps : Q)
    (set_weights : bool) :
  forall (idx : nat) (atom_col : gmap nat color) (cp : Mol) (e : exn),
    atom_col_loop idx atom_importance eps set_weights atom_col cp = Raise e ->
    e = RuntimeError /\
    exists (n : nat) (v : Q),
      atom_importance !! n = Some v /\ (v < - eps)%Q /\
      (NumAtoms cp <= idx + n)%nat.
Proof.
  induction atom_importance as [|v rest IH]; intros idx atom_col cp e H;
    simpl in H; [discriminate|].
  destruct (atom_col_step idx v eps set_weights atom_col cp)
    as [[ac1 cp1]|e1] eqn:E; simpl in H.
  - destruct (atom_col_step_spec _ _ _ _ _ _ _ _ E) as (Hn & _).
    destruct (IH _ _ _ _ H) as (-> & n & v' & Hv & Hlt & Hge).
    split; [done|]. exists (S n), v'. rewrite Hn in Hge.
    repeat split; try done. lia.
  - injection H as <-.
    destruct (atom_col_step_Raise _ _ _ _ _ _ _ E) as (-> & _ & Hlt & Hge).
    split; [done|]. exists 0%nat, v. repeat split; try done. lia.
Qed.

Lemma atom_col_loop_Ok_inv (atom_importance : vec) (eps : Q) :
  forall (idx : nat) (atom_col atom_col' : gmap nat color) (cp cp' : Mol),
    atom_col_loop idx atom_importance eps true atom_col cp
    = Ok (atom_col', cp') ->
    forall (n : nat) (v : Q),
      atom_importance !! n = Some v -> (v < - eps)%Q ->
      (idx + n < NumAtoms cp)%nat.
Proof.
  induction atom_importance as [|v rest IH];
    intros idx atom_col atom_col' cp cp' H n v' Hn Hlt; simpl in H;
    [discriminate|].
  inv_bind H. destruct a as [ac1 cp1]. simpl in H.
  destruct (atom_col_step_spec _ _ _ _ _ _ _ _ Ha) as (HN & _).
  destruct n as [|n]; simpl in Hn.
  - injection Hn as <-. unfold atom_col_step, SetAtomNote in Ha.
    apply Qltb_lt in Hlt. rewrite Hlt in Ha.
    destruct (decide (idx < NumAtoms cp)%nat); [lia | discriminate].
  - specialize (IH _ _ _ _ _ H n v' Hn Hlt). rewrite HN in IH. lia.
Qed.

(** X11. With [set_weights] the colouring writes a note for each value
    below [- eps] and for those only: it returns exactly when every index
    with such a value is an atom of the molecule, and otherwise raises the
    range error of RDKit; values past the last atom that are not below
    [- eps] do no harm. *)
Theorem determine_atom_col_returns_iff (cp : Mol) (atom_importance : vec)
    (eps : Q) :
  ((exists r : gmap nat color * Mol,
       determine_atom_col cp atom_importance eps true = Ok r) <->
   forall (idx : nat) (v : Q),
     atom_importance !! idx = Some v -> (v < - eps)%Q ->
     (idx < NumAtoms cp)%nat) /\
  (forall e : exn,
      determine_atom_col cp atom_importance eps true = Raise e ->
      e = RuntimeError).
Proof.
  unfold determine_atom_col. split; [split|].
  - intros [[atom_col cp'] H] idx v Hv Hlt.
    exact (atom_col_loop_Ok_inv _ _ _ _ _ _ _ H idx v Hv Hlt).
  - intros Hall.
    destruct (atom_col_loop 0 atom_importance eps true ∅ cp) as [r|e] eqn:E;
      [eauto|].
    destruct (atom_col_loop_Raise _ _ _ _ _ _ _ E) as (_ & n & v & Hv & Hlt & Hge).
    specialize (Hall n v Hv Hlt). simpl in Hge. lia.
  - intros e H. by destruct (atom_col_loop_Raise _ _ _ _ _ _ _ H).
Qed.

Lemma determine_atom_col_returns_iff_witness :
  exists r : gmap nat color * Mol,
    determine_atom_col ethane [0.5; -0.5; 0.7]%Q 0.1%Q true = Ok r.
Proof.
  refine (proj2 (proj1 (determine_atom_col_returns_iff ethane
                          [0.5; -0.5; 0.7]%Q 0.1%Q)) _).
  intros [|[|[|idx]]] v Hv Hlt; simpl in *; try lia; try discriminate.
  injection Hv as <-. exfalso. revert Hlt. apply Qle_not_lt. discriminate.
Defined.

(** The colour map, read both ways. *)
Lemma determine_atom_col_colored (cp cp' : Mol) (atom_importance : vec)
    (eps : Q) (set_weights : bool) (atom_col : gmap nat color) :
  determine_atom_col cp atom_importance eps set_weights
  = Ok (atom_col, cp') ->
  forall (idx : nat) (c : color),
    atom_col !! idx = Some c <->
    c = RED_COL /\
    exists v : Q,
      atom_importance !! idx = Some v /\ ((eps < v)%Q \/ (v < - eps)%Q).
Proof.
  intros H idx c. rewrite (determine_atom_col_lookup _ _ _ _ _ _ H idx).
  destruct (atom_importance !! idx) as [v|] eqn:E.
  - destruct (Qltb eps v) eqn:E1; destruct (Qltb v (- eps)) eqn:E2; simpl.
    all: try apply Qltb_lt in E1. all: try apply Qltb_lt in E2.
    all: try apply Qltb_ge in E1. all: try apply Qltb_ge in E2.
    all: split; [intros [= <-]; eauto 6|].
    all: try (by intros [-> _]).
    intros (_ & v' & [= <-] & [Hc|Hc]); lra.
  - split; [discriminate|]. by intros (_ & v & ? & _).
Qed.

Lemma determine_bond_col_lookup (atom_col : gmap nat color) (mol : Mol)
    (idx : nat) (c : color) :
  determine_bond_col atom_col mol !! idx = Some c <->
  exists i j : nat,
    GetBonds mol !! idx = Some (i, j) /\
    atom_col !! i = Some c /\ atom_col !! j = Some c.
Proof.
  unfold determine_bond_col.
  destruct (bond_col_loop_spec atom_col (GetBonds mol) 0 ∅) as [Hin Hout].
  destruct (GetBonds mol !! idx) as [[i j]|] eqn:E.
  - rewrite (Hin idx (i, j) E : _ !! idx = _). simpl.
    rewrite lookup_empty. split.
    + destruct (atom_col !! i) as [ci|] eqn:Ei;
        destruct (atom_col !! j) as [cj|] eqn:Ej; try done.
      destruct (decide (ci = cj)) as [->|]; [|done].
      intros [= ->]. by exists i, j.
    + intros (i' & j' & [= <- <-] & -> & ->). by rewrite decide_True.
  - apply lookup_ge_None in E. rewrite Hout, lookup_empty by lia.
    split; [done|]. by intros (i & j & ? & _).
Qed.

(** X12. The two colourings together: a bond is coloured exactly when the
    values of both its endpoints are beyond [eps], on whichever side, and
    its colour is then [RED_COL]; so a bond between an atom above [eps] and
    an atom below [- eps] is coloured like a bond between two atoms above
    [eps], and [GREEN_COL] is never given. *)
Theorem colourings_compose (cp cp' mol : Mol) (atom_importance : vec)
    (eps : Q) (set_weights : bool) (atom_col : gmap nat color) :
  determine_atom_col cp atom_importance eps set_weights
  = Ok (atom_col, cp') ->
  forall (idx : nat) (c : color),
    determine_bond_col atom_col mol !! idx = Some c <->
    c = RED_COL /\
    exists (i j : nat) (vi vj : Q),
      GetBonds mol !! idx = Some (i, j) /\
      atom_importance !! i = Some vi /\ atom_importance !! j = Some vj /\
      ((eps < vi)%Q \/ (vi < - eps)%Q) /\
      ((eps < vj)%Q \/ (vj < - eps)%Q).
Proof.
  intros H idx c. rewrite determine_bond_col_lookup.
  pose proof (determine_atom_col_colored _ _ _ _ _ _ H) as Hat. split.
  - intros (i & j & Hb & Hi & Hj).
    apply Hat in Hi as (-> & vi & Hvi & Hci).
    apply Hat in Hj as (_ & vj & Hvj & Hcj).
    split; [done|]. by exists i, j, vi, vj.
  - intros (-> & i & j & vi & vj & Hb & Hvi & Hvj & Hci & Hcj).
    exists i, j. split; [done|]. split; apply Hat; eauto.
Qed.

Lemma colourings_compose_witness :
  exists (atom_col : gmap nat color) (cp' : Mol),
    determine_atom_col ethanol [0.5; -0.5; 0]%Q 0.1%Q true
    = Ok (atom_col, cp') /\
    determine_bond_col atom_col ethanol !! 0%nat = Some RED_COL.
Proof.
  destruct (determine_atom_col ethanol [0.5; -0.5; 0]%Q 0.1%Q true)
    as [[atom_col cp']|e] eqn:E.
  - exists atom_col, cp'. split; [reflexivity|].
    apply (colourings_compose ethanol cp' ethanol [0.5; -0.5; 0]%Q 0.1%Q
             true atom_col E 0%nat RED_COL).
    split; [reflexivity|].
    exists 0%nat, 1%nat, 0.5%Q, (-0.5)%Q.
    repeat split; try reflexivity; [left | right]; reflexivity.
  - vm_compute in E. discriminate E.
Defined.

Lemma preprocessing_sign_partition_witness :
  exists (out att_probs : list vec) (f : Q -> Q),
    preprocessing_attributions sample_MolFromSmiles
      sample_QuantileTransformer_fit ["CCO"; "CC"]
      [[-1; 1; 3]%Q; [0; 2]%Q] (Some [[0.2; 0.4]%Q; [-0.6]%Q])
      "MinMaxScaler" = Ok out /\
    out = map (map f) att_probs.
Proof.
  destruct (preprocessing_attributions sample_MolFromSmiles
              sample_QuantileTransformer_fit ["CCO"; "CC"]
              [[-1; 1; 3]%Q; [0; 2]%Q] (Some [[0.2; 0.4]%Q; [-0.6]%Q])
              "MinMaxScaler") as [out|e] eqn:E.
  - destruct (preprocessing_sign_partition sample_MolFromSmiles
                sample_QuantileTransformer_fit ["CCO"; "CC"]
                [[-1; 1; 3]%Q; [0; 2]%Q] (Some [[0.2; 0.4]%Q; [-0.6]%Q])
                "MinMaxScaler" out) as (att_probs & f & _ & Hmap & _).
    + discriminate.
    + exact E.
    + exists out, att_probs, f. split; [reflexivity | exact Hmap].
  - vm_compute in E. discriminate E.
Defined.

Lemma preprocessing_keeps_shape_witness :
  exists out : list vec,
    preprocessing_attributions sample_MolFromSmiles
      sample_QuantileTransformer_fit ["CCO"; "CC"]
      [[-1; 1; 3]%Q; [0; 2]%Q] (Some [[0.2; 0.4]%Q; [-0.6]%Q])
      "MinMaxScaler" = Ok out /\
    length out = 2%nat.
Proof.
  destruct (preprocessing_attributions sample_MolFromSmiles
              sample_QuantileTransformer_fit ["CCO"; "CC"]
              [[-1; 1; 3]%Q; [0; 2]%Q] (Some [[0.2; 0.4]%Q; [-0.6]%Q])
              "MinMaxScaler") as [out|e] eqn:E.
  - exists out. split; [reflexivity|].
    exact (proj1 (preprocessing_keeps_shape sample_MolFromSmiles
                    sample_QuantileTransformer_fit ["CCO"; "CC"]
                    [[-1; 1; 3]%Q; [0; 2]%Q]
                    (Some [[0.2; 0.4]%Q; [-0.6]%Q]) "MinMaxScaler" out E)).
  - vm_compute in E. discriminate E.
Defined.

Lemma preprocessing_input_errors_witness :
  preprocessing_attributions sample_MolFromSmiles
    sample_QuantileTransformer_fit ["CCO"; "CC"] [[-1; 1; 3]%Q] None
    "MinMaxScaler" = Raise IndexError.
Proof.
  refine (proj2 (proj2 (preprocessing_input_errors sample_MolFromSmiles
                          sample_QuantileTransformer_fit)
                   ["CCO"; "CC"] [[-1; 1; 3]%Q] None "MinMaxScaler" _)).
  simpl. lia.
Defined.

Lemma preprocessing_without_bonds_ignores_molecules_witness :
  preprocessing_attributions sample_MolFromSmiles
    sample_QuantileTransformer_fit ["CCO"; "CC"]
    [[-1; 1; 3]%Q; [0; 2]%Q] None "MinMaxScaler"
  = preprocessing_attributions (fun _ => None)
      sample_QuantileTransformer_fit ["not a molecule"; ""]
      [[-1; 1; 3]%Q; [0; 2]%Q] None "MinMaxScaler".
Proof.
  apply (preprocessing_without_bonds_ignores_molecules sample_MolFromSmiles
           (fun _ => None) sample_QuantileTransformer_fit
           ["CCO"; "CC"] ["not a molecule"; ""]).
  reflexivity.
Defined.

(** ** The drawing data *)

Lemma radii_lookup (c : Q) (l : vec) :
  forall n k : nat,
    (list_to_map (imap (fun i _ => ((n + i)%nat, c)) l) : gmap nat Q) !! k
    = if decide (n <= k < n + length l)%nat then Some c else None.
Proof.
  induction l as [|x l IH]; intros n k; simpl.
  - rewrite lookup_empty. by rewrite decide_False by lia.
  - rewrite Nat.add_0_r.
    rewrite (imap_ext _ (fun i _ => ((S n + i)%nat, c)))
      by (intros i y _; simpl; f_equal; lia).
    destruct (decide (n = k)) as [->|Hne].
    + rewrite lookup_insert_eq. by rewrite decide_True by lia.
    + rewrite lookup_insert_ne by done. rewrite IH.
      destruct (decide (S n <= k < S n + length l)%nat);
        [by rewrite decide_True by lia | by rewrite decide_False by lia].
Qed.

(** X13. What [visualization] hands to the drawer for a parsed molecule.
    The highlighted atoms are the indices whose score is above 0.1 or
    below -0.1, the highlighted bonds are the bonds with both ends
    highlighted, and every colour is [RED_COL]; every index of the score
    vector, highlighted or not, has the radius [0.1 * vis_factor]; the
    drawn molecule carries the note ["%.3f" % v] on the atoms whose score
    is below -0.1 and the notes of the given molecule elsewhere. The data
    are built whenever the vector is not longer than the molecule. *)
Theorem visualization_molecule_spec (mol : Mol) (atom_imp : vec)
    (vis_factor : Q) :
  (forall d : DrawCall,
      visualization_molecule mol atom_imp vis_factor = Ok d ->
      (forall idx : nat,
          idx ∈ highlightAtoms d <->
          exists v : Q,
            atom_imp !! idx = Some v /\ ((0.1 < v)%Q \/ (v < -0.1)%Q)) /\
      (forall idx : nat,
          idx ∈ highlightBonds d <->
          exists i j : nat,
            GetBonds mol !! idx = Some (i, j) /\
            i ∈ highlightAtoms d /\ j ∈ highlightAtoms d) /\
      (forall (idx : nat) (c : color),
          highlightAtomColors d !! idx = Some c \/
          highlightBondColors d !! idx = Some c -> c = RED_COL) /\
      (forall k : nat,
          highlightAtomRadii d !! k
          = if decide (k < length atom_imp)%nat
            then Some (0.1 * vis_factor)%Q else None) /\
      (forall idx : nat,
          atomNote (draw_mol d) !! idx
          = match atom_imp !! idx with
            | Some v =>
                if Qltb v (-0.1) then Some (format_3f v)
                else atomNote mol !! idx
            | None => atomNote mol !! idx
            end)) /\
  ((length atom_imp <= NumAtoms mol)%nat ->
   exists d : DrawCall,
     visualization_molecule mol atom_imp vis_factor = Ok d).
Proof.
  unfold visualization_molecule. split.
  - intros d H. inv_bind H. destruct a as [atom_col cp']. simpl in H.
    injection H as <-. simpl.
    pose proof (determine_atom_col_colored _ _ _ _ _ _ Ha) as Hat.
    assert (Hatoms : forall idx : nat,
      idx ∈ dom atom_col <->
      exists v : Q,
        atom_imp !! idx = Some v /\ ((0.1 < v)%Q \/ (v < -0.1)%Q)).
    { intros idx. rewrite elem_of_dom. split.
      - intros [c Hc]. apply Hat in Hc as (_ & v & Hv & Hc).
        exists v. split; [done|]. exact Hc.
      - intros (v & Hv & Hc). exists RED_COL. apply Hat.
        split; [done|]. exists v. split; [done|]. exact Hc. }
    split; [exact Hatoms|]. split; [|split; [|split]].
    + intros idx. rewrite elem_of_dom. split.
      * intros [c Hc]. apply determine_bond_col_lookup in Hc
          as (i & j & Hb & Hi & Hj).
        exists i, j. split; [done|].
        split; apply elem_of_dom; eauto.
      * intros (i & j & Hb & Hi & Hj).
        apply elem_of_dom in Hi as [ci Hi]. apply elem_of_dom in Hj as [cj Hj].
        pose proof (proj1 (proj1 (Hat _ _) Hi)) as ->.
        pose proof (proj1 (proj1 (Hat _ _) Hj)) as ->.
        exists RED_COL. apply determine_bond_col_lookup. by exists i, j.
    + intros idx c [Hc|Hc].
      * by apply Hat in Hc as [-> _].
      * apply determine_bond_col_lookup in Hc as (i & j & _ & Hi & _).
        by apply Hat in Hi as [-> _].
    + intros k.
      pose proof (radii_lookup (0.1 * vis_factor) atom_imp 0 k) as Hr.
      simpl in Hr. rewrite Hr.
      destruct (decide (k < length atom_imp)%nat);
        [by rewrite decide_True by lia | by rewrite decide_False by lia].
    + intros idx.
      destruct (atom_col_loop_spec _ _ _ _ _ _ _ _ Ha) as [Hin Hout].
      destruct (atom_imp !! idx) as [v|] eqn:E.
      * destruct (Hin idx v E) as [_ Hnote]. simpl in Hnote.
        rewrite Hnote. by rewrite andb_true_r.
      * apply lookup_ge_None in E. destruct (Hout idx) as [_ Hn]; [lia|].
        exact Hn.
  - intros Hlen.
    destruct (atom_col_loop_Ok atom_imp 0.1%Q true 0 ∅ mol)
      as (atom_col & cp' & H); [simpl; lia|].
    unfold determine_atom_col. rewrite H. simpl. eauto.
Qed.

Lemma visualization_molecule_spec_witness :
  exists d : DrawCall,
    visualization_molecule ethanol [0.5; -0.5; 0]%Q 1%Q = Ok d.
Proof.
  apply (proj2 (visualization_molecule_spec ethanol [0.5; -0.5; 0]%Q 1%Q)).
  simpl. lia.
Defined.

(** ** Binarization and the evaluations *)

(** X14. The three-way rule of the comparative evaluation is odd and
    monotone: negating a score negates its label, and a greater score never
    gets a smaller label. *)
Theorem signed_label_odd_monotone :
  (forall x : Q, signed_label (- x) = (- signed_label x)%Z) /\
  (forall x y : Q, (x <= y)%Q -> (signed_label x <= signed_label y)%Z).
Proof.
  split.
  - intros x. unfold signed_label.
    destruct (Qltb 0.5 x) eqn:E1; destruct (Qltb x (-0.5)) eqn:E2;
      destruct (Qltb 0.5 (- x)) eqn:E3; destruct (Qltb (- x) (-0.5)) eqn:E4;
      try reflexivity.
    all: try apply Qltb_lt in E1. all: try apply Qltb_lt in E2.
    all: try apply Qltb_lt in E3. all: try apply Qltb_lt in E4.
    all: try apply Qltb_ge in E1. all: try apply Qltb_ge in E2.
    all: try apply Qltb_ge in E3. all: try apply Qltb_ge in E4.
    all: exfalso; lra.
  - intros x y Hxy. unfold signed_label.
    destruct (Qltb 0.5 x) eqn:E1; destruct (Qltb x (-0.5)) eqn:E2;
      destruct (Qltb 0.5 y) eqn:E3; destruct (Qltb y (-0.5)) eqn:E4;
      try lia.
    all: try apply Qltb_lt in E1. all: try apply Qltb_lt in E2.
    all: try apply Qltb_lt in E3. all: try apply Qltb_lt in E4.
    all: try apply Qltb_ge in E1. all: try apply Qltb_ge in E2.
    all: try apply Qltb_ge in E3. all: try apply Qltb_ge in E4.
    all: exfalso; lra.
Qed.

Lemma signed_label_odd_monotone_witness :
  (signed_label (-0.7) <= signed_label 0.2)%Z.
Proof.
  apply (proj2 signed_label_odd_monotone). discriminate.
Defined.

Lemma cliff_loop_members (smiles_list : list string) (att_probs : list vec)
    (att_true_pair : list pair_record) :
  forall (att_probs_reset : list vec) (att_true : list (list Z)),
    cliff_loop smiles_list att_probs att_true_pair
    = Ok (att_probs_reset, att_true) ->
    forall p : vec, p ∈ att_probs_reset -> p ∈ att_probs.
Proof.
  induction att_true_pair as [|r rest IH]; intros reset trues H p Hp;
    simpl in H.
  - injection H as <- <-. by apply elem_of_nil in Hp.
  - inv_bind H. inv_bind H. inv_bind H. inv_bind H. inv_bind H.
    destruct a3 as [probs ts]. injection H as <- <-. simpl in Hp.
    apply getitem_Ok in Ha1, Ha2.
    apply elem_of_cons in Hp as [->|Hp];
      [by eapply list_elem_of_lookup_2|].
    apply elem_of_cons in Hp as [->|Hp];
      [by eapply list_elem_of_lookup_2|].
    by eapply IH.
Qed.

Section EvaluationFacts.

Variable MolFromSmiles : string -> option Mol.
Variable QuantileTransformer_fit : vec -> result (vec -> result vec).
Variable score : Type.
Variable attribution_f1 attribution_accuracy :
  list (list Z) -> list (list Z) -> result (list score).
Variable nanmean : list score -> score.

(** X15. In the comparative evaluation the threshold that is searched is
    returned but never used: the statistics come from the fixed cuts at
    0.5 and -0.5, so two threshold searches that both return give the same
    statistics, each with its own threshold. *)
Theorem evaluate_cliffs_ignores_threshold
    (get_optimal_threshold get_optimal_threshold' :
       list (list Z) -> list vec -> bool -> result score)
    (smiles_list : list string) (att_true_pair : list pair_record)
    (atom_importance : list vec) (bond_importance : option (list vec))
    (stats stats' : list (string * score)) (t t' : score) :
  evaluate_cliffs MolFromSmiles QuantileTransformer_fit score
    get_optimal_threshold attribution_f1 attribution_accuracy nanmean
    smiles_list att_true_pair atom_importance bond_importance
  = Ok (stats, t) ->
  evaluate_cliffs MolFromSmiles QuantileTransformer_fit score
    get_optimal_threshold' attribution_f1 attribution_accuracy nanmean
    smiles_list att_true_pair atom_importance bond_importance
  = Ok (stats', t') ->
  stats = stats' /\
  exists (att_probs att_probs_reset : list vec) (att_true : list (list Z)),
    cliff_loop smiles_list att_probs att_true_pair
    = Ok (att_probs_reset, att_true) /\
    get_optimal_threshold att_true att_probs_reset true = Ok t /\
    get_optimal_threshold' att_true att_probs_reset true = Ok t'.
Proof.
  unfold evaluate_cliffs. intros H H'.
  inv_bind H. rewrite Ha in H'. simpl in H'.
  inv_bind H. rewrite Ha0 in H'. simpl in H'.
  inv_bind H. inv_bind H'. inv_bind H. rewrite Ha3 in H'. simpl in H'.
  inv_bind H. rewrite Ha4 in H'. simpl in H'.
  injection H as <- <-. injection H' as <- <-.
  split; [done|]. destruct a0 as [reset trues]. by exists a, reset, trues.
Qed.

(** X16. In the comparative evaluation the label of an atom agrees in
    sign with its aggregated score: the predicted vectors that are
    labelled are normalized vectors of the pipeline, and the normalization
    is such that a strictly positive aggregated score is never labelled
    -1 and a zero or negative one is never labelled 1. *)
Theorem evaluate_cliffs_label_signs
    (get_optimal_threshold :
       list (list Z) -> list vec -> bool -> result score)
    (smiles_list : list string) (att_true_pair : list pair_record)
    (atom_importance : list vec) (bond_importance : option (list vec))
    (stats : list (string * score)) (t : score) :
  evaluate_cliffs MolFromSmiles QuantileTransformer_fit score
    get_optimal_threshold attribution_f1 attribution_accuracy nanmean
    smiles_list att_true_pair atom_importance bond_importance
  = Ok (stats, t) ->
  exists (agg att_probs_reset : list vec) (att_true : list (list Z))
         (f : Q -> Q) (f1 acc : list score),
    preprocessing_loop MolFromSmiles 0 smiles_list atom_importance
      bond_importance = Ok agg /\
    cliff_loop smiles_list (map (map f) agg) att_true_pair
    = Ok (att_probs_reset, att_true) /\
    (forall p : vec, p ∈ att_probs_reset -> exists a : vec,
        a ∈ agg /\ p = map f a) /\
    attribution_f1 att_true (map (map signed_label) att_probs_reset)
    = Ok f1 /\
    attribution_accuracy att_true (map (map signed_label) att_probs_reset)
    = Ok acc /\
    stats = [("ATT F1", nanmean f1); ("ATT ACC", nanmean acc)] /\
    forall x : Q, x ∈ concat agg ->
      ((0 < x)%Q -> signed_label (f x) <> (-1)%Z) /\
      ((x <= 0)%Q -> signed_label (f x) <> 1%Z).
Proof.
  unfold evaluate_cliffs. intros H.
  inv_bind H. inv_bind H. inv_bind H. inv_bind H. inv_bind H.
  injection H as <- <-. destruct a0 as [reset trues]. simpl in *.
  assert (Hn : "MinMaxScaler" <> "") by discriminate.
  destruct (preprocessing_sign_partition _ _ _ _ _ _ _ Hn Ha)
    as (agg & f & Hagg & -> & Hsign).
  exists agg, reset, trues, f, a2, a3.
  split; [exact Hagg|]. split; [exact Ha0|]. split; [|split; [|split; [|split]]];
    try done.
  - intros p Hp. apply (cliff_loop_members _ _ _ _ _ Ha0) in Hp.
    apply list_elem_of_fmap in Hp as (a' & -> & Ha'). eauto.
  - intros x Hx. destruct (Hsign x Hx) as [Hpos Hneg].
    destruct (signed_label_spec (f x)) as (S1 & S2 & S3). split.
    + intros Hgt. destruct (Hpos Hgt) as [Hlo Hhi].
      destruct (Qlt_le_dec 0.5 (f x)) as [Hc|Hc].
      * rewrite (S1 Hc). discriminate.
      * rewrite S3 by lra. discriminate.
    + intros Hle. specialize (Hneg Hle).
      destruct (Qlt_le_dec (f x) (-0.5)) as [Hc|Hc].
      * rewrite (S2 Hc). discriminate.
      * rewrite S3 by lra. discriminate.
Qed.

End EvaluationFacts.

Section ThresholdFacts.

Variable MolFromSmiles : string -> option Mol.
Variable QuantileTransformer_fit : vec -> result (vec -> result vec).
Variable score : Type.
Variable attribution_f1 attribution_accuracy :
  list (list Z) -> prediction -> result (list score).
Variable nanmean : list score -> score.

(** X17. With [binary] set, [evaluate_attributions] searches no threshold
    and computes no AUROC: the result is the same whatever these two
    collaborators do; when it returns, the threshold is the constant -1
    and the statistics are F1 and accuracy, in this order, both taken on
    the normalized scores themselves. *)
Theorem evaluate_attributions_binary
    (get_optimal_threshold get_optimal_threshold' :
       list (list Z) -> list vec -> result Q)
    (attribution_auroc attribution_auroc' :
       list (list Z) -> prediction -> result (list score))
    (smiles_list : list string) (att_true : list (list Z))
    (atom_importance : list vec) (bond_importance : option (list vec)) :
  evaluate_attributions MolFromSmiles QuantileTransformer_fit score
    get_optimal_threshold attribution_auroc attribution_f1
    attribution_accuracy nanmean
    smiles_list att_true atom_importance bond_importance true
  = evaluate_attributions MolFromSmiles QuantileTransformer_fit score
      get_optimal_threshold' attribution_auroc' attribution_f1
      attribution_accuracy nanmean
      smiles_list att_true atom_importance bond_importance true
  /\ forall (stats : list (string * score)) (t : Q),
      evaluate_attributions MolFromSmiles QuantileTransformer_fit score
        get_optimal_threshold attribution_auroc attribution_f1
        attribution_accuracy nanmean
        smiles_list att_true atom_importance bond_importance true
      = Ok (stats, t) ->
      t = (-1)%Q /\
      exists (att_probs : list vec) (f1 acc : list score),
        preprocessing_attributions MolFromSmiles QuantileTransformer_fit
          smiles_list atom_importance bond_importance "MinMaxScaler"
        = Ok att_probs /\
        attribution_f1 att_true (Scores att_probs) = Ok f1 /\
        attribution_accuracy att_true (Scores att_probs) = Ok acc /\
        stats = [("ATT F1", nanmean f1); ("ATT ACC", nanmean acc)].
Proof.
  split; [reflexivity|].
  unfold evaluate_attributions. intros stats t H.
  inv_bind H. inv_bind H. inv_bind H. injection H as <- <-.
  split; [done|]. by exists a, a0, a1.
Qed.

(** X18. Without [binary], [evaluate_attributions] labels every atom 1
    when its normalized score exceeds the threshold that was found and 0
    otherwise, and reports AUROC on the scores and F1 and accuracy on the
    labels, in this order. As the normalization sends aggregated scores
    that are zero or negative below 0 and the others into [0, 1], a
    threshold that is not negative labels every atom with a zero or
    negative aggregated score 0, and a negative threshold labels every
    atom with a positive aggregated score 1. *)
Theorem evaluate_attributions_threshold
    (get_optimal_threshold : list (list Z) -> list vec -> result Q)
    (attribution_auroc : list (list Z) -> prediction -> result (list score))
    (smiles_list : list string) (att_true : list (list Z))
    (atom_importance : list vec) (bond_importance : option (list vec))
    (stats : list (string * score)) (t : Q) :
  evaluate_attributions MolFromSmiles QuantileTransformer_fit score
    get_optimal_threshold attribution_auroc attribution_f1
    attribution_accuracy nanmean
    smiles_list att_true atom_importance bond_importance false
  = Ok (stats, t) ->
  exists (agg : list vec) (f : Q -> Q) (auroc f1 acc : list score),
    preprocessing_loop MolFromSmiles 0 smiles_list atom_importance
      bond_importance = Ok agg /\
    get_optimal_threshold att_true (map (map f) agg) = Ok t /\
    attribution_auroc att_true (Scores (map (map f) agg)) = Ok auroc /\
    attribution_f1 att_true
      (Labels (map (map (fun x => binary_label t (f x))) agg)) = Ok f1 /\
    attribution_accuracy att_true
      (Labels (map (map (fun x => binary_label t (f x))) agg)) = Ok acc /\
    stats = [("ATT AUROC", nanmean auroc); ("ATT F1", nanmean f1);
             ("ATT ACC", nanmean acc)] /\
    (forall x : Q,
        (binary_label t (f x) = 1%Z <-> (t < f x)%Q) /\
        (binary_label t (f x) = 0%Z <-> (f x <= t)%Q)) /\
    forall x : Q, x ∈ concat agg ->
      ((0 <= t)%Q -> (x <= 0)%Q -> binary_label t (f x) = 0%Z) /\
      ((t < 0)%Q -> (0 < x)%Q -> binary_label t (f x) = 1%Z).
Proof.
  unfold evaluate_attributions. intros H.
  inv_bind H. inv_bind H. inv_bind H. inv_bind H. inv_bind H.
  injection H as <- <-.
  assert (Hn : "MinMaxScaler" <> "") by discriminate.
  destruct (preprocessing_sign_partition _ _ _ _ _ _ _ Hn Ha)
    as (agg & f & Hagg & -> & Hsign).
  assert (Hlabel : forall x : Q,
    (binary_label a0 (f x) = 1%Z <-> (a0 < f x)%Q) /\
    (binary_label a0 (f x) = 0%Z <-> (f x <= a0)%Q)).
  { intros x. unfold binary_label.
    destruct (Qltb a0 (f x)) eqn:E.
    - apply Qltb_lt in E. split; split; try done. intros. lra.
    - apply Qltb_ge in E. split; split; try done. intros. lra. }
  exists agg, f, a1, a2, a3.
  rewrite !map_map in Ha2, Ha3.
  assert (Hmm : map (fun x : vec => map (binary_label a0) (map f x)) agg
                = map (map (fun x => binary_label a0 (f x))) agg).
  { apply map_ext. intros l. apply map_map. }
  rewrite Hmm in Ha2, Ha3.
  split; [exact Hagg|]. split; [exact Ha0|]. split; [exact Ha1|].
  split; [exact Ha2|]. split; [exact Ha3|]. split; [done|].
  split; [exact Hlabel|].
  intros x Hx. destruct (Hsign x Hx) as [Hpos Hneg]. split.
  - intros Ht Hle. apply (Hlabel x). specialize (Hneg Hle). lra.
  - intros Ht Hgt. apply (Hlabel x). destruct (Hpos Hgt). lra.
Qed.

End ThresholdFacts.

Lemma evaluate_cliffs_ignores_threshold_witness :
  exists (stats stats' : list (string * Q)) (t t' : Q),
    evaluate_cliffs sample_MolFromSmiles sample_QuantileTransformer_fit Q
      sample_threshold sample_metric sample_metric sample_mean
      ["CCO"; "CC"]
      [{| SMILES_1 := "CC"; SMILES_2 := "CCO";
          attribution_1 := [0; 1]%Z; attribution_2 := [0; 0; 1]%Z |}]
      [[1; 3; 5]%Q; [2; 4]%Q] None = Ok (stats, t) /\
    evaluate_cliffs sample_MolFromSmiles sample_QuantileTransformer_fit Q
      (fun _ _ _ => Ok 0.25%Q) sample_metric sample_metric sample_mean
      ["CCO"; "CC"]
      [{| SMILES_1 := "CC"; SMILES_2 := "CCO";
          attribution_1 := [0; 1]%Z; attribution_2 := [0; 0; 1]%Z |}]
      [[1; 3; 5]%Q; [2; 4]%Q] None = Ok (stats', t') /\
    stats = stats'.
Proof.
  destruct (evaluate_cliffs sample_MolFromSmiles
              sample_QuantileTransformer_fit Q
              sample_threshold sample_metric sample_metric sample_mean
              ["CCO"; "CC"]
              [{| SMILES_1 := "CC"; SMILES_2 := "CCO";
                  attribution_1 := [0; 1]%Z; attribution_2 := [0; 0; 1]%Z |}]
              [[1; 3; 5]%Q; [2; 4]%Q] None) as [[stats t]|e] eqn:E;
    [|vm_compute in E; discriminate E].
  destruct (evaluate_cliffs sample_MolFromSmiles
              sample_QuantileTransformer_fit Q
              (fun _ _ _ => Ok 0.25%Q) sample_metric sample_metric
              sample_mean ["CCO"; "CC"]
              [{| SMILES_1 := "CC"; SMILES_2 := "CCO";
                  attribution_1 := [0; 1]%Z; attribution_2 := [0; 0; 1]%Z |}]
              [[1; 3; 5]%Q; [2; 4]%Q] None) as [[stats' t']|e] eqn:E';
    [|vm_compute in E'; discriminate E'].
  exists stats, stats', t, t'. split; [reflexivity|]. split; [reflexivity|].
  exact (proj1 (evaluate_cliffs_ignores_threshold _ _ _ _ _ _ _ _ _ _ _ _
                  _ _ _ _ E E')).
Defined.

Lemma evaluate_cliffs_label_signs_witness :
  exists (stats : list (string * Q)) (t : Q) (agg : list vec),
    evaluate_cliffs sample_MolFromSmiles sample_QuantileTransformer_fit Q
      sample_threshold sample_metric sample_metric sample_mean
      ["CCO"; "CC"]
      [{| SMILES_1 := "CC"; SMILES_2 := "CCO";
          attribution_1 := [0; 1]%Z; attribution_2 := [0; 0; 1]%Z |}]
      [[-1; 3; 5]%Q; [2; 4]%Q] None = Ok (stats, t) /\
    preprocessing_loop sample_MolFromSmiles 0 ["CCO"; "CC"]
      [[-1; 3; 5]%Q; [2; 4]%Q] None = Ok agg.
Proof.
  destruct (evaluate_cliffs sample_MolFromSmiles
              sample_QuantileTransformer_fit Q
              sample_threshold sample_metric sample_metric sample_mean
              ["CCO"; "CC"]
              [{| SMILES_1 := "CC"; SMILES_2 := "CCO";
                  attribution_1 := [0; 1]%Z; attribution_2 := [0; 0; 1]%Z |}]
              [[-1; 3; 5]%Q; [2; 4]%Q] None) as [[stats t]|e] eqn:E;
    [|vm_compute in E; discriminate E].
  destruct (evaluate_cliffs_label_signs _ _ _ _ _ _ _ _ _ _ _ _ _ E)
    as (agg & _ & _ & _ & _ & _ & Hagg & _).
  exists stats, t, agg. split; [reflexivity | exact Hagg].
Defined.

Lemma evaluate_attributions_binary_witness :
  exists (stats : list (string * Q)) (t : Q),
    evaluate_attributions sample_MolFromSmiles
      sample_QuantileTransformer_fit Q sample_search sample_score_metric
      sample_score_metric sample_score_metric sample_mean
      ["CCO"; "CC"] [[0; 0; 1]%Z; [0; 1]%Z]
      [[-1; 3; 5]%Q; [2; 4]%Q] None true = Ok (stats, t) /\
    t = (-1)%Q.
Proof.
  destruct (evaluate_attributions sample_MolFromSmiles
              sample_QuantileTransformer_fit Q sample_search
              sample_score_metric sample_score_metric sample_score_metric
              sample_mean ["CCO"; "CC"] [[0; 0; 1]%Z; [0; 1]%Z]
              [[-1; 3; 5]%Q; [2; 4]%Q] None true) as [[stats t]|e] eqn:E;
    [|vm_compute in E; discriminate E].
  exists stats, t. split; [reflexivity|].
  exact (proj1 (proj2 (evaluate_attributions_binary sample_MolFromSmiles
                         sample_QuantileTransformer_fit Q
                         sample_score_metric sample_score_metric sample_mean
                         sample_search sample_search
                         sample_score_metric sample_score_metric
                         ["CCO"; "CC"] [[0; 0; 1]%Z; [0; 1]%Z]
                         [[-1; 3; 5]%Q; [2; 4]%Q] None) stats t E)).
Defined.

Lemma evaluate_attributions_threshold_witness :
  exists (stats : list (string * Q)) (t : Q) (agg : list vec),
    evaluate_attributions sample_MolFromSmiles
      sample_QuantileTransformer_fit Q sample_search sample_score_metric
      sample_score_metric sample_score_metric sample_mean
      ["CCO"; "CC"] [[0; 0; 1]%Z; [0; 1]%Z]
      [[-1; 3; 5]%Q; [2; 4]%Q] None false = Ok (stats, t) /\
    preprocessing_loop sample_MolFromSmiles 0 ["CCO"; "CC"]
      [[-1; 3; 5]%Q; [2; 4]%Q] None = Ok agg.
Proof.
  destruct (evaluate_attributions sample_MolFromSmiles
              sample_QuantileTransformer_fit Q sample_search
              sample_score_metric sample_score_metric sample_score_metric
              sample_mean ["CCO"; "CC"] [[0; 0; 1]%Z; [0; 1]%Z]
              [[-1; 3; 5]%Q; [2; 4]%Q] None false) as [[stats t]|e] eqn:E;
    [|vm_compute in E; discriminate E].
  destruct (evaluate_attributions_threshold _ _ _ _ _ _ _ _ _ _ _ _ _ _ E)
    as (agg & _ & _ & _ & _ & Hagg & _).
  exists stats, t, agg. split; [reflexivity | exact Hagg].
Defined.
